(** * In-N-Out ordering site: the REST handlers and the client cart

    A shallow embedding of the Express/Mongoose backend (the route handlers
    for the menu, cart and order resources) and of the React client's cart
    mutations, with the properties the specification states about them.

    Conventions of the embedding:
    - a handler is entered once the connection middleware has run
      ([connectToDatabase] succeeded): a request that the middleware answers
      with 500 reaches no handler;
    - a Mongoose collection is the list of its documents in natural
      (insertion) order; every document carries its [_id];
    - a handler is a computation in the monad [M]: it threads the store and
      may raise; [try_catch] is the handler's [try { ... } catch (error)];
    - every [await] on the store either is served or rejects: the list
      [outage] says, call by call, which of the coming store calls reject
      (the empty list: the store serves every call);
    - [Date.now()] is an input of the request ([now]);
    - [req.params.id] is a string, cast to an [ObjectId] by the model method
      that receives it; the identifier format is a parameter
      ([castObjectId]), [castHex24] is one instance;
    - request bodies are typed: a field is absent ([None]) or has the type
      the schema gives it;
    - prices are rationals, quantities and timestamps are integers. *)

From Stdlib Require Import ZArith QArith Ascii String List Permutation Sorted Lia.
From stdpp Require Import base decidable option list strings numbers sorting.
From stdpp Require Import gmap pretty.

Local Open Scope string_scope.
Local Open Scope list_scope.
Local Open Scope Z_scope.

(** ** Data model (the Mongoose schemas) *)

Definition ObjectId : Type := N.
Definition Date : Type := Z.
Bind Scope N_scope with ObjectId.
Bind Scope Z_scope with Date.

(** The subdocument [{ name: String, price: Number, quantity: Number }] of
    [orderSchema.items] and [cartSchema.items]; also the shape of an entry
    of the client's cart. *)
Module Item.
Record t : Type := mk { name : string; price : Q; quantity : Z }.
End Item.

Module MenuItem.
Record t : Type := mk {
  _id : ObjectId;
  name : string;
  description : string;
  price : Q;
  category : string;
  available : bool;
  imageUrl : option string;
  createdAt : Date }.
End MenuItem.

Module CustomerInfo.
Record t : Type := mk {
  name : option string; email : option string; phone : option string }.
End CustomerInfo.

Module Order.
(** [totalPrice] is [required: true]: a document under construction may
    lack it, [validate] refuses to save it then. *)
Record t : Type := mk {
  _id : ObjectId;
  items : list Item.t;
  totalPrice : option Q;
  customerInfo : option CustomerInfo.t;
  status : string;
  orderDate : Date;
  notes : option string }.

Definition set_status (s : string) (o : t) : t :=
  mk (_id o) (items o) (totalPrice o) (customerInfo o) s (orderDate o) (notes o).
End Order.

Module Cart.
Record t : Type := mk {
  _id : ObjectId;
  sessionId : string;
  items : list Item.t;
  lastUpdated : Date }.

Definition set_items (l : list Item.t) (c : t) : t :=
  mk (_id c) (sessionId c) l (lastUpdated c).
Definition set_lastUpdated (d : Date) (c : t) : t :=
  mk (_id c) (sessionId c) (items c) d.
End Cart.

(** The three collections, and the generator of fresh [_id]s. *)
Record Store : Type := mkStore {
  MenuItems : list MenuItem.t;
  Orders : list Order.t;
  Carts : list Cart.t;
  next_id : ObjectId }.

Definition with_MenuItems (l : list MenuItem.t) (s : Store) : Store :=
  mkStore l (Orders s) (Carts s) (next_id s).
Definition with_Orders (l : list Order.t) (s : Store) : Store :=
  mkStore (MenuItems s) l (Carts s) (next_id s).
Definition with_Carts (l : list Cart.t) (s : Store) : Store :=
  mkStore (MenuItems s) (Orders s) l (next_id s).
Definition with_next_id (i : ObjectId) (s : Store) : Store :=
  mkStore (MenuItems s) (Orders s) (Carts s) i.

(** ** Errors, responses *)

Inductive Error : Type :=
  | ValidationError (path : string)   (* a schema validator refused the document *)
  | CastError (path : string)         (* a value does not cast to the path's type *)
  | DuplicateKey (path : string)      (* a unique index refused the insert *)
  | StoreUnavailable.                 (* the store rejected the call *)

Inductive Json : Type :=
  | JMenuItems (l : list MenuItem.t)
  | JCart (c : Cart.t)
  | JOrders (l : list Order.t)
  | JOrder (o : Order.t)
  | JMessage (message : string)
  | JError (error : string) (details : option Error).

Record Response : Type := mkResponse { statusCode : Z; json : Json }.

(** [res.json(x)] answers 200; [res.status(n).json(x)] answers [n]. *)
Definition res_json (j : Json) : Response := mkResponse 200 j.
Definition res_status_json (n : Z) (j : Json) : Response := mkResponse n j.

(** ** The handler monad: store, outages, exceptions *)

Record World : Type := mkWorld { store : Store; outage : list bool }.

Inductive result (A : Type) : Type :=
  | Return (a : A)
  | Throw (e : Error).
Arguments Return {A} a.
Arguments Throw {A} e.

Definition M (A : Type) : Type := World → result A * World.

Definition ret {A} (a : A) : M A := λ w, (Return a, w).
Definition throw {A} (e : Error) : M A := λ w, (Throw e, w).
Definition bind {A B} (m : M A) (k : A → M B) : M B :=
  λ w, match m w with
       | (Return a, w') => k a w'
       | (Throw e, w') => (Throw e, w')
       end.

Declare Scope handler_scope.
Delimit Scope handler_scope with handler.
Notation "'let*' x ':=' m 'in' k" := (bind m (λ x, k))
  (at level 10, x name, m at level 100, k at level 200) : handler_scope.
Notation "m ';;;' k" := (bind m (λ _, k))
  (at level 100, k at level 200, right associativity) : handler_scope.

(** [try { body } catch (error) { on_error }]: the writes made before the
    exception stay. *)
Definition try_catch (body : M Response) (on_error : Error → Response)
    : World → Response * World :=
  λ w, match body w with
       | (Return r, w') => (r, w')
       | (Throw e, w') => (on_error e, w')
       end.

(** One call to the store: rejected when the store is out for this call,
    run on the collections otherwise. *)
Definition await {A} (op : Store → result A * Store) : M A :=
  λ w, match outage w with
       | true :: rest => (Throw StoreUnavailable, mkWorld (store w) rest)
       | false :: rest =>
           let '(r, s) := op (store w) in (r, mkWorld s rest)
       | [] => let '(r, s) := op (store w) in (r, mkWorld s [])
       end.

(** A request served from a store [s] under the outages [o]. *)
Definition serve (h : World → Response * World) (o : list bool) (s : Store)
    : Response * Store :=
  let '(r, w) := h (mkWorld s o) in (r, store w).

(** ** Collections *)

Section collection.
Context {A : Type}.

(** The first document a filter matches, as [findOne] returns it. *)
Definition findOne (p : A → bool) (c : list A) : option A := List.find p c.

(** The collection without the first document the filter matches. *)
Fixpoint deleteOne (p : A → bool) (c : list A) : list A :=
  match c with
  | [] => []
  | d :: c' => if p d then c' else d :: deleteOne p c'
  end.

(** The collection with the first document the filter matches updated. *)
Fixpoint updateOne (p : A → bool) (f : A → A) (c : list A) : list A :=
  match c with
  | [] => []
  | d :: c' => if p d then f d :: c' else d :: updateOne p f c'
  end.
End collection.

Definition menu_has_id (i : ObjectId) (d : MenuItem.t) : bool :=
  bool_decide (MenuItem._id d = i).
Definition order_has_id (i : ObjectId) (d : Order.t) : bool :=
  bool_decide (Order._id d = i).
Definition cart_has_id (i : ObjectId) (d : Cart.t) : bool :=
  bool_decide (Cart._id d = i).
Definition cart_of_session (sid : string) (d : Cart.t) : bool :=
  bool_decide (Cart.sessionId d = sid).

(** [sort({ orderDate: -1 })]: insertion into a list kept newest first. *)
Fixpoint insert_newest_first (o : Order.t) (l : list Order.t) : list Order.t :=
  match l with
  | [] => [o]
  | o' :: l' =>
      if (Order.orderDate o' <=? Order.orderDate o)%Z
      then o :: o' :: l'
      else o' :: insert_newest_first o l'
  end.

Definition sort_orderDate_desc (l : list Order.t) : list Order.t :=
  foldr insert_newest_first [] l.

(** ** Schema validation ([doc.validate()], run by [save]) *)

Definition validStatuses : list string :=
  ["pending"; "confirmed"; "preparing"; "ready"; "delivered"; "cancelled"].

(** [orderSchema]: [totalPrice] is required, [status] is in the enum. *)
Definition validate_order (o : Order.t) : result unit :=
  match Order.totalPrice o with
  | None => Throw (ValidationError "totalPrice")
  | Some _ =>
      if bool_decide (Order.status o ∈ validStatuses)
      then Return tt
      else Throw (ValidationError "status")
  end.

(** [cartSchema]: [sessionId] is required (a required string is not empty). *)
Definition validate_cart (c : Cart.t) : result unit :=
  if bool_decide (Cart.sessionId c = "")
  then Throw (ValidationError "sessionId")
  else Return tt.

(** A Mongoose document in the handler's hands: [isNew] is set by [new
    Model(...)] and cleared on the documents a query returns; [save] inserts
    a new document and updates a stored one. *)
Record Doc (A : Type) : Type := mkDoc { isNew : bool; doc : A }.
Arguments mkDoc {A} isNew doc.
Arguments isNew {A} d.
Arguments doc {A} d.

Definition lift {A} (r : result A) : M A := λ w, (r, w).

(** ** The model methods the handlers call *)

Section models.
(** The store's identifier format: how the string of [req.params.id] casts
    to an [ObjectId], [None] when it is malformed. *)
Variable castObjectId : string → option ObjectId.

Definition cast_id (raw : string) : M ObjectId :=
  match castObjectId raw with
  | Some i => ret i
  | None => throw (CastError "_id")
  end.

(** [new ObjectId()] *)
Definition fresh_id : M ObjectId :=
  λ w, let s := store w in
       (Return (next_id s),
        mkWorld (with_next_id (N.succ (next_id s)) s) (outage w)).

(** [MenuItem.find({ available: true })] *)
Definition MenuItem_find_available : M (list MenuItem.t) :=
  await (λ s, (Return (List.filter MenuItem.available (MenuItems s)), s)).

(** [MenuItem.findByIdAndDelete(id)] *)
Definition MenuItem_findByIdAndDelete (raw : string) : M (option MenuItem.t) :=
  (let* i := cast_id raw in
   await (λ s, (Return (findOne (menu_has_id i) (MenuItems s)),
                with_MenuItems (deleteOne (menu_has_id i) (MenuItems s)) s)))%handler.

(** [Cart.findOne({ sessionId })] *)
Definition Cart_findOne (sid : string) : M (option (Doc Cart.t)) :=
  await (λ s, (Return (mkDoc false <$> findOne (cart_of_session sid) (Carts s)), s)).

(** [new Cart({ sessionId, items })]: [lastUpdated] defaults to [Date.now]. *)
Definition Cart_new (now : Date) (sid : string) (items : list Item.t)
    : M (Doc Cart.t) :=
  (let* i := fresh_id in
   ret (mkDoc true (Cart.mk i sid items now)))%handler.

(** [cart.save()]: validation, then an insert (refused by the unique index
    on [sessionId] when the session already has a cart) or the update of
    the stored document of the same [_id]. *)
Definition Cart_save (c : Doc Cart.t) : M unit :=
  (lift (validate_cart (doc c));;;
   await (λ s,
     if isNew c then
       match findOne (cart_of_session (Cart.sessionId (doc c))) (Carts s) with
       | Some _ => (Throw (DuplicateKey "sessionId"), s)
       | None => (Return tt, with_Carts (Carts s ++ [doc c]) s)
       end
     else
       (Return tt,
        with_Carts (updateOne (cart_has_id (Cart._id (doc c))) (λ _, doc c)
                      (Carts s)) s)))%handler.

(** [Cart.findOneAndDelete({ sessionId })] *)
Definition Cart_findOneAndDelete (sid : string) : M (option Cart.t) :=
  await (λ s, (Return (findOne (cart_of_session sid) (Carts s)),
               with_Carts (deleteOne (cart_of_session sid) (Carts s)) s)).

(** [Order.find().sort({ orderDate: -1 })] *)
Definition Order_find_sorted : M (list Order.t) :=
  await (λ s, (Return (sort_orderDate_desc (Orders s)), s)).

(** [new Order({ items, totalPrice, customerInfo, notes, status })]:
    [orderDate] defaults to [Date.now]. *)
Definition Order_new (now : Date) (items : list Item.t) (totalPrice : option Q)
    (customerInfo : option CustomerInfo.t) (notes : option string)
    (status : string) : M (Doc Order.t) :=
  (let* i := fresh_id in
   ret (mkDoc true (Order.mk i items totalPrice customerInfo status now notes)))%handler.

(** [newOrder.save()] *)
Definition Order_save (o : Doc Order.t) : M unit :=
  (lift (validate_order (doc o));;;
   await (λ s,
     if isNew o then (Return tt, with_Orders (Orders s ++ [doc o]) s)
     else
       (Return tt,
        with_Orders (updateOne (order_has_id (Order._id (doc o))) (λ _, doc o)
                       (Orders s)) s)))%handler.

(** [Order.findByIdAndUpdate(id, { status }, { new: true })]: no validator
    runs; the updated document is returned. *)
Definition Order_findByIdAndUpdate_status (raw : string) (status : string)
    : M (option Order.t) :=
  (let* i := cast_id raw in
   await (λ s, (Return (Order.set_status status <$> findOne (order_has_id i) (Orders s)),
                with_Orders (updateOne (order_has_id i) (Order.set_status status)
                               (Orders s)) s)))%handler.

(** [Order.findByIdAndDelete(id)] *)
Definition Order_findByIdAndDelete (raw : string) : M (option Order.t) :=
  (let* i := cast_id raw in
   await (λ s, (Return (findOne (order_has_id i) (Orders s)),
                with_Orders (deleteOne (order_has_id i) (Orders s)) s)))%handler.
End models.

(** ** Request bodies *)

(** The body of [POST /api/cart/:sessionId]. *)
Module CartBody.
Record t : Type := mk { items : list Item.t }.
End CartBody.

(** The body of [POST /api/orders]; a field is [None] when the body lacks
    it.  [status] is a field a caller may send: the handler does not read it. *)
Module OrderBody.
Record t : Type := mk {
  items : option (list Item.t);
  totalPrice : option Q;
  customerInfo : option CustomerInfo.t;
  notes : option string;
  sessionId : option string;
  status : option string }.
End OrderBody.

(** The body of [PATCH /api/orders/:id/status]. *)
Module StatusBody.
Record t : Type := mk { status : option string }.
End StatusBody.

(** [!items || items.length === 0] *)
Definition no_items (items : option (list Item.t)) : bool :=
  match items with
  | None => true
  | Some l => bool_decide (length l = 0%nat)
  end.

(** The truthiness of an optional string: [undefined] and [""] are falsy. *)
Definition truthy (v : option string) : bool :=
  match v with
  | None => false
  | Some s => negb (bool_decide (s = ""))
  end.

(** [validStatuses.includes(status)] *)
Definition includes (l : list string) (v : option string) : bool :=
  match v with
  | None => false
  | Some s => bool_decide (s ∈ l)
  end.

(** ** The route handlers *)

Section handlers.
Variable castObjectId : string → option ObjectId.

Local Open Scope handler_scope.

(** [GET /api/menu] *)
Definition get_menu : World → Response * World :=
  try_catch
    (let* items := MenuItem_find_available in
     ret (res_json (JMenuItems items)))
    (λ error, res_status_json 500
                (JError "Failed to fetch menu items" (Some error))).

(** [DELETE /api/menu/:id] *)
Definition delete_menu (id : string) : World → Response * World :=
  try_catch
    (let* deletedItem := MenuItem_findByIdAndDelete castObjectId id in
     match deletedItem with
     | None => ret (res_status_json 404 (JError "Menu item not found" None))
     | Some _ => ret (res_json (JMessage "Menu item deleted successfully"))
     end)
    (λ error, res_status_json 500
                (JError "Failed to delete menu item" (Some error))).

(** [GET /api/cart/:sessionId] *)
Definition get_cart (now : Date) (sessionId : string)
    : World → Response * World :=
  try_catch
    (let* found := Cart_findOne sessionId in
     let* cart :=
       match found with
       | Some cart => ret cart
       | None =>
           let* cart := Cart_new now sessionId [] in
           Cart_save cart;;;
           ret cart
       end in
     ret (res_json (JCart (doc cart))))
    (λ error, res_status_json 500 (JError "Failed to fetch cart" (Some error))).

(** [POST /api/cart/:sessionId] *)
Definition post_cart (now : Date) (sessionId : string) (body : CartBody.t)
    : World → Response * World :=
  try_catch
    (let* found := Cart_findOne sessionId in
     let* cart :=
       match found with
       | None => Cart_new now sessionId (CartBody.items body)
       | Some cart =>
           ret (mkDoc (isNew cart)
                  (Cart.set_lastUpdated now
                     (Cart.set_items (CartBody.items body) (doc cart))))
       end in
     Cart_save cart;;;
     ret (res_json (JCart (doc cart))))
    (λ error, res_status_json 400 (JError "Failed to update cart" (Some error))).

(** [DELETE /api/cart/:sessionId] *)
Definition delete_cart (sessionId : string) : World → Response * World :=
  try_catch
    (Cart_findOneAndDelete sessionId;;;
     ret (res_json (JMessage "Cart cleared successfully")))
    (λ error, res_status_json 500 (JError "Failed to clear cart" (Some error))).

(** [GET /api/orders] *)
Definition get_orders : World → Response * World :=
  try_catch
    (let* orders := Order_find_sorted in
     ret (res_json (JOrders orders)))
    (λ error, res_status_json 500 (JError "Failed to fetch orders" (Some error))).

(** [POST /api/orders] *)
Definition post_orders (now : Date) (body : OrderBody.t)
    : World → Response * World :=
  try_catch
    (if no_items (OrderBody.items body) then
       ret (res_status_json 400
              (JError "Order must contain at least one item" None))
     else
       let* newOrder :=
         Order_new now (default [] (OrderBody.items body))
           (OrderBody.totalPrice body) (OrderBody.customerInfo body)
           (OrderBody.notes body) "pending" in
       Order_save newOrder;;;
       (if truthy (OrderBody.sessionId body) then
          Cart_findOneAndDelete (default "" (OrderBody.sessionId body));;;
          ret tt
        else ret tt);;;
       ret (res_status_json 201 (JOrder (doc newOrder))))
    (λ error, res_status_json 400 (JError "Failed to create order" (Some error))).

(** [PATCH /api/orders/:id/status] *)
Definition patch_order_status (id : string) (body : StatusBody.t)
    : World → Response * World :=
  try_catch
    (if negb (includes validStatuses (StatusBody.status body)) then
       ret (res_status_json 400 (JError "Invalid status" None))
     else
       let* order :=
         Order_findByIdAndUpdate_status castObjectId id
           (default "" (StatusBody.status body)) in
       match order with
       | None => ret (res_status_json 404 (JError "Order not found" None))
       | Some order => ret (res_json (JOrder order))
       end)
    (λ error, res_status_json 400
                (JError "Failed to update order status" (Some error))).

(** [DELETE /api/orders/:id] *)
Definition delete_order (id : string) : World → Response * World :=
  try_catch
    (let* deletedOrder := Order_findByIdAndDelete castObjectId id in
     match deletedOrder with
     | None => ret (res_status_json 404 (JError "Order not found" None))
     | Some _ => ret (res_json (JMessage "Order deleted successfully"))
     end)
    (λ error, res_status_json 500 (JError "Failed to delete order" (Some error))).
End handlers.

(** ** A concrete identifier format: 24 hexadecimal digits *)

Definition hex_digit (c : ascii) : option N :=
  let n := N_of_ascii c in
  if ((48 <=? n) && (n <=? 57))%N then Some (n - 48)%N
  else if ((97 <=? n) && (n <=? 102))%N then Some (n - 87)%N
  else if ((65 <=? n) && (n <=? 70))%N then Some (n - 55)%N
  else None.

Fixpoint parse_hex (acc : N) (s : string) : option N :=
  match s with
  | EmptyString => Some acc
  | String c s' =>
      match hex_digit c with
      | Some d => parse_hex (16 * acc + d)%N s'
      | None => None
      end
  end.

Definition castHex24 (raw : string) : option ObjectId :=
  if bool_decide (String.length raw = 24%nat) then parse_hex 0 raw else None.

(** ** The client's cart (App.js) *)

(** What a mutation hands over: the list given to [setCart] and the list
    given to [syncCartToBackend]. *)
Record CartUpdate : Type := mkCartUpdate {
  setCart : list Item.t;
  syncCartToBackend : list Item.t }.

Definition named (name : string) (cartItem : Item.t) : bool :=
  bool_decide (Item.name cartItem = name).

(** [{ ...cartItem, quantity: q }] *)
Definition with_quantity (q : Z) (cartItem : Item.t) : Item.t :=
  Item.mk (Item.name cartItem) (Item.price cartItem) q.

Definition addToCart (cart : list Item.t) (item : MenuItem.t) : CartUpdate :=
  let existingItem := List.find (named (MenuItem.name item)) cart in
  let updatedCart :=
    match existingItem with
    | Some _ =>
        List.map (λ cartItem,
                    if named (MenuItem.name item) cartItem
                    then with_quantity (Item.quantity cartItem + 1) cartItem
                    else cartItem) cart
    | None => (cart ++ [Item.mk (MenuItem.name item) (MenuItem.price item) 1])%list
    end in
  mkCartUpdate updatedCart updatedCart.

Definition updateQuantity (cart : list Item.t) (name : string) (change : Z)
    : CartUpdate :=
  let updatedCart :=
    List.filter (λ item, (0 <? Item.quantity item)%Z)
      (List.map (λ item,
                   if named name item
                   then with_quantity (Z.max 0 (Item.quantity item + change)) item
                   else item) cart) in
  mkCartUpdate updatedCart updatedCart.

Definition removeFromCart (cart : list Item.t) (name : string) : CartUpdate :=
  let updatedCart := List.filter (λ item, negb (named name item)) cart in
  mkCartUpdate updatedCart updatedCart.

(** Every entry of the cart counts at least one unit. *)
Definition quantities_positive (cart : list Item.t) : Prop :=
  Forall (λ item, 1 ≤ Item.quantity item) cart.

(** ** Sample data *)

Definition fries : Item.t := Item.mk "French Fries" (249 # 100) 2.
Definition shake : Item.t := Item.mk "Shakes" (299 # 100) 1.

Definition menu_fries : MenuItem.t :=
  MenuItem.mk 1 "French Fries" "Golden, crispy fries made fresh" (249 # 100)
    "sides" true None 100.
Definition menu_retired : MenuItem.t :=
  MenuItem.mk 2 "Lemonade" "Out of season" (199 # 100) "drinks" false None 100.

Definition cart_s1 : Cart.t := Cart.mk 3 "s1" [fries] 500.
Definition cart_s2 : Cart.t := Cart.mk 4 "s2" [shake] 600.

Definition order_old : Order.t :=
  Order.mk 5 [shake] (Some (299 # 100)) None "delivered" 700 None.
Definition order_recent : Order.t :=
  Order.mk 6 [fries] (Some (498 # 100)) None "pending" 900 None.

Definition sample_store : Store :=
  mkStore [menu_fries; menu_retired] [order_old; order_recent]
    [cart_s1; cart_s2] 7.

Definition order_body (sessionId : option string) (status : option string)
    : OrderBody.t :=
  OrderBody.mk (Some [fries]) (Some (498 # 100)) None None sessionId status.

Definition body_empty_items : OrderBody.t :=
  OrderBody.mk (Some []) (Some (498 # 100)) None None (Some "s1") None.

Definition id_of_order_old : string := "000000000000000000000005".
Definition id_unknown : string := "0000000000000000000000ff".
Definition id_malformed : string := "abc".

(** ** Orderings, routing and invariants used by the properties *)

(** [a] is dated no earlier than [b]. *)
Definition newer_or_same (a b : Order.t) : Prop :=
  Order.orderDate b ≤ Order.orderDate a.

(** Case analysis of a run of [POST /api/orders]: on the body's fields and on
    the store's answers to the (at most two) calls. *)
Ltac post_orders_cases body o :=
  let items := fresh "items" in
  let total := fresh "total" in
  let sid := fresh "sid" in
  destruct body as [items total ? ? sid ?];
  destruct items as [[|? ?]|]; destruct total as [?|];
  destruct sid as [[|? ?]|];
  destruct o as [|[] [|[] ?]];
  cbn.

(** The router. *)
Inductive Request : Type :=
  | GetMenu
  | DeleteMenu (id : string)
  | GetCart (now : Date) (sessionId : string)
  | PostCart (now : Date) (sessionId : string) (body : CartBody.t)
  | DeleteCart (sessionId : string)
  | GetOrders
  | PostOrders (now : Date) (body : OrderBody.t)
  | PatchOrderStatus (id : string) (body : StatusBody.t)
  | DeleteOrder (id : string).

Definition handle (castObjectId : string → option ObjectId) (req : Request)
    : World → Response * World :=
  match req with
  | GetMenu => get_menu
  | DeleteMenu id => delete_menu castObjectId id
  | GetCart now sessionId => get_cart now sessionId
  | PostCart now sessionId body => post_cart now sessionId body
  | DeleteCart sessionId => delete_cart sessionId
  | GetOrders => get_orders
  | PostOrders now body => post_orders now body
  | PatchOrderStatus id body => patch_order_status castObjectId id body
  | DeleteOrder id => delete_order castObjectId id
  end.

(** The carts of a store are well formed: identifiers are unique and were
    issued by the generator, a session has at most one cart (the unique
    index of [cartSchema.sessionId]) and no cart has an empty [sessionId]
    (the path is required). *)
Definition carts_wf (n : ObjectId) (c : list Cart.t) : Prop :=
  NoDup (Cart._id <$> c)
  ∧ Forall (λ d, (Cart._id d < n)%N) c
  ∧ NoDup (Cart.sessionId <$> c)
  ∧ Forall (λ d, Cart.sessionId d ≠ "") c.

Definition carts_ok (s : Store) : Prop := carts_wf (next_id s) (Carts s).

(** [hoare P m Q E]: run from a store satisfying [P], the computation [m]
    ends in a store satisfying [Q a] when it returns [a], and [E] when it
    raises - whatever the outages. *)
Definition hoare {A} (P : Store → Prop) (m : M A)
    (Q : A → Store → Prop) (E : Store → Prop) : Prop :=
  ∀ w, P (store w) →
    match m w with
    | (Return a, w') => Q a (store w')
    | (Throw _, w') => E (store w')
    end.

(** After [new Cart(...)], the document is new, carries the identifier just
    issued, and the stored carts are older. *)
Definition cart_is_fresh (c : Doc Cart.t) (s : Store) : Prop :=
  isNew c = true
  ∧ carts_wf (Cart._id (doc c)) (Carts s)
  ∧ next_id s = N.succ (Cart._id (doc c)).

(** A stored cart, changed in the handler's hands but for its identifier
    and its session. *)
Definition cart_is_stored (c : Doc Cart.t) (s : Store) : Prop :=
  carts_ok s
  ∧ isNew c = false
  ∧ ∃ old, old ∈ Carts s
           ∧ Cart._id (doc c) = Cart._id old
           ∧ Cart.sessionId (doc c) = Cart.sessionId old.

(** A session of requests, each with its own outages, from a store. *)
Fixpoint serve_all (castObjectId : string → option ObjectId)
    (reqs : list (Request * list bool)) (s : Store) : Store :=
  match reqs with
  | [] => s
  | (req, o) :: reqs' =>
      serve_all castObjectId reqs' (serve (handle castObjectId req) o s).2
  end.

Definition empty_store : Store := mkStore [] [] [] 0.

(** ** The other routes of the server *)

(** The body of [POST /api/menu] and of [PUT /api/menu/:id], and the shape
    of an entry of the seed: the paths of [menuItemSchema]; a path is [None]
    when the object lacks it. *)
Module MenuItemBody.
Record t : Type := mk {
  name : option string;
  description : option string;
  price : option Q;
  category : option string;
  available : option bool;
  imageUrl : option string;
  createdAt : option Date }.
End MenuItemBody.

(** [new MenuItem(body)], the document under construction: a fresh [_id],
    the schema's defaults in place ([category], [available], [createdAt]);
    the required paths may be missing. *)
Module NewMenuItem.
Record t : Type := mk {
  _id : ObjectId;
  name : option string;
  description : option string;
  price : option Q;
  category : string;
  available : bool;
  imageUrl : option string;
  createdAt : Date }.
End NewMenuItem.

(** The payloads of the routes below, beside those of the routes above. *)
Inductive ApiJson : Type :=
  | JOf (j : Json)
  | JMenuItem (m : MenuItem.t)
  | JHealth (status message : string)
  | JSeeded (message : string) (items : list MenuItemBody.t).

Record ApiResponse : Type := mkApiResponse { apiStatus : Z; apiJson : ApiJson }.

Definition widen (r : Response) : ApiResponse :=
  mkApiResponse (statusCode r) (JOf (json r)).

Definition try_catch_api (body : M ApiResponse) (on_error : Error → ApiResponse)
    : World → ApiResponse * World :=
  λ w, match body w with
       | (Return r, w') => (r, w')
       | (Throw e, w') => (on_error e, w')
       end.

Definition serve_api (h : World → ApiResponse * World) (o : list bool) (s : Store)
    : ApiResponse * Store :=
  let '(r, w) := h (mkWorld s o) in (r, store w).

(** [menuItemSchema]: [name], [description] and [price] are required (a
    required string is not empty); the first path refused is reported. *)
Definition validate_menuItem (d : NewMenuItem.t) : result MenuItem.t :=
  match NewMenuItem.name d with
  | None => Throw (ValidationError "name")
  | Some name =>
      if bool_decide (name = "") then Throw (ValidationError "name")
      else
        match NewMenuItem.description d with
        | None => Throw (ValidationError "description")
        | Some description =>
            if bool_decide (description = "")
            then Throw (ValidationError "description")
            else
              match NewMenuItem.price d with
              | None => Throw (ValidationError "price")
              | Some price =>
                  Return (MenuItem.mk (NewMenuItem._id d) name description price
                            (NewMenuItem.category d) (NewMenuItem.available d)
                            (NewMenuItem.imageUrl d) (NewMenuItem.createdAt d))
              end
        end
  end.

Fixpoint validate_menuItems (ds : list NewMenuItem.t) : result (list MenuItem.t) :=
  match ds with
  | [] => Return []
  | d :: ds' =>
      match validate_menuItem d with
      | Throw e => Throw e
      | Return m =>
          match validate_menuItems ds' with
          | Throw e => Throw e
          | Return ms => Return (m :: ms)
          end
      end
  end.

(** The update [{ $set: body }] on a stored menu item: the paths of the body
    replace the stored ones, the others and the [_id] stay. *)
Definition apply_update (b : MenuItemBody.t) (m : MenuItem.t) : MenuItem.t :=
  MenuItem.mk (MenuItem._id m)
    (default (MenuItem.name m) (MenuItemBody.name b))
    (default (MenuItem.description m) (MenuItemBody.description b))
    (default (MenuItem.price m) (MenuItemBody.price b))
    (default (MenuItem.category m) (MenuItemBody.category b))
    (default (MenuItem.available m) (MenuItemBody.available b))
    (match MenuItemBody.imageUrl b with
     | Some url => Some url
     | None => MenuItem.imageUrl m
     end)
    (default (MenuItem.createdAt m) (MenuItemBody.createdAt b)).

Section more_models.
Variable castObjectId : string → option ObjectId.
(** The update validators [runValidators: true] runs on the paths of an
    update. *)
Variable updateValidators : MenuItemBody.t → result unit.

Local Open Scope handler_scope.

(** [MenuItem.findById(id)] *)
Definition MenuItem_findById (raw : string) : M (option MenuItem.t) :=
  let* i := cast_id castObjectId raw in
  await (λ s, (Return (findOne (menu_has_id i) (MenuItems s)), s)).

(** [new MenuItem(body)] *)
Definition MenuItem_new (now : Date) (body : MenuItemBody.t) : M NewMenuItem.t :=
  let* i := fresh_id in
  ret (NewMenuItem.mk i (MenuItemBody.name body) (MenuItemBody.description body)
         (MenuItemBody.price body)
         (default "main" (MenuItemBody.category body))
         (default true (MenuItemBody.available body))
         (MenuItemBody.imageUrl body)
         (default now (MenuItemBody.createdAt body))).

(** [newItem.save()]: validation, then the insert; the stored document. *)
Definition MenuItem_save (d : NewMenuItem.t) : M MenuItem.t :=
  let* m := lift (validate_menuItem d) in
  await (λ s, (Return m, with_MenuItems (MenuItems s ++ [m]) s)).

(** [MenuItem.findByIdAndUpdate(id, body, { new: true, runValidators: true })] *)
Definition MenuItem_findByIdAndUpdate (raw : string) (body : MenuItemBody.t)
    : M (option MenuItem.t) :=
  let* i := cast_id castObjectId raw in
  lift (updateValidators body);;;
  await (λ s, (Return (apply_update body <$> findOne (menu_has_id i) (MenuItems s)),
               with_MenuItems (updateOne (menu_has_id i) (apply_update body)
                                 (MenuItems s)) s)).

(** [MenuItem.deleteMany({})] *)
Definition MenuItem_deleteMany : M unit :=
  await (λ s, (Return tt, with_MenuItems [] s)).

Fixpoint MenuItem_new_each (now : Date) (bodies : list MenuItemBody.t)
    : M (list NewMenuItem.t) :=
  match bodies with
  | [] => ret []
  | body :: bodies' =>
      let* d := MenuItem_new now body in
      let* ds := MenuItem_new_each now bodies' in
      ret (d :: ds)
  end.

(** [MenuItem.insertMany(bodies)]: the documents are built and validated,
    then inserted by one call. *)
Definition MenuItem_insertMany (now : Date) (bodies : list MenuItemBody.t)
    : M (list MenuItem.t) :=
  let* ds := MenuItem_new_each now bodies in
  let* ms := lift (validate_menuItems ds) in
  await (λ s, (Return ms, with_MenuItems (MenuItems s ++ ms) s)).

(** [Order.findById(id)] *)
Definition Order_findById (raw : string) : M (option Order.t) :=
  let* i := cast_id castObjectId raw in
  await (λ s, (Return (findOne (order_has_id i) (Orders s)), s)).

(** [GET /api/health] *)
Definition get_health : World → ApiResponse * World :=
  λ w, (mkApiResponse 200 (JHealth "ok" "Server is running"), w).

(** [GET /api/menu/:id] *)
Definition get_menu_by_id (id : string) : World → ApiResponse * World :=
  try_catch_api
    (let* item := MenuItem_findById id in
     match item with
     | None => ret (mkApiResponse 404 (JOf (JError "Menu item not found" None)))
     | Some item => ret (mkApiResponse 200 (JMenuItem item))
     end)
    (λ error, mkApiResponse 500
                (JOf (JError "Failed to fetch menu item" (Some error)))).

(** [POST /api/menu] *)
Definition post_menu (now : Date) (body : MenuItemBody.t)
    : World → ApiResponse * World :=
  try_catch_api
    (let* newItem := MenuItem_new now body in
     let* newItem := MenuItem_save newItem in
     ret (mkApiResponse 201 (JMenuItem newItem)))
    (λ error, mkApiResponse 400
                (JOf (JError "Failed to create menu item" (Some error)))).

(** [PUT /api/menu/:id] *)
Definition put_menu (id : string) (body : MenuItemBody.t)
    : World → ApiResponse * World :=
  try_catch_api
    (let* updatedItem := MenuItem_findByIdAndUpdate id body in
     match updatedItem with
     | None => ret (mkApiResponse 404 (JOf (JError "Menu item not found" None)))
     | Some updatedItem => ret (mkApiResponse 200 (JMenuItem updatedItem))
     end)
    (λ error, mkApiResponse 400
                (JOf (JError "Failed to update menu item" (Some error)))).

(** [GET /api/orders/:id] *)
Definition get_order_by_id (id : string) : World → Response * World :=
  try_catch
    (let* order := Order_findById id in
     match order with
     | None => ret (res_status_json 404 (JError "Order not found" None))
     | Some order => ret (res_json (JOrder order))
     end)
    (λ error, res_status_json 500 (JError "Failed to fetch order" (Some error))).

(** The [menuItems] of [GET /api/seed]. *)
Definition seed_menuItems : list MenuItemBody.t :=
  [ MenuItemBody.mk (Some "Double-Double Burger")
      (Some "Two beef patties, two slices of cheese, fresh lettuce & tomato")
      (Some (599 # 100)) (Some "burgers") (Some true) None None;
    MenuItemBody.mk (Some "Cheeseburger")
      (Some "Classic single patty burger with melted cheese")
      (Some (399 # 100)) (Some "burgers") (Some true) None None;
    MenuItemBody.mk (Some "French Fries")
      (Some "Golden, crispy fries made fresh")
      (Some (249 # 100)) (Some "sides") (Some true) None None;
    MenuItemBody.mk (Some "Shakes")
      (Some "Chocolate, Strawberry, or Vanilla made with real ice cream")
      (Some (299 # 100)) (Some "drinks") (Some true) None None ].

(** [GET /api/seed] *)
Definition get_seed (now : Date) : World → ApiResponse * World :=
  try_catch_api
    (MenuItem_deleteMany;;;
     MenuItem_insertMany now seed_menuItems;;;
     ret (mkApiResponse 200
            (JSeeded "Database seeded successfully" seed_menuItems)))
    (λ error, mkApiResponse 500
                (JOf (JError "Failed to seed database" (Some error)))).

(** The 404 handler, for a request no route matches. *)
Definition route_not_found : World → Response * World :=
  λ w, (res_status_json 404 (JError "Route not found" None), w).

(** The routes of the application: those of [Request], and the others. *)
Inductive Route : Type :=
  | Routed (req : Request)
  | Health
  | MenuGet (id : string)
  | MenuCreate (now : Date) (body : MenuItemBody.t)
  | MenuUpdate (id : string) (body : MenuItemBody.t)
  | OrderGet (id : string)
  | Seed (now : Date)
  | Unmatched.

Definition widened (h : World → Response * World) : World → ApiResponse * World :=
  λ w, let '(r, w') := h w in (widen r, w').

Definition dispatch (route : Route) : World → ApiResponse * World :=
  match route with
  | Routed req => widened (handle castObjectId req)
  | Health => get_health
  | MenuGet id => get_menu_by_id id
  | MenuCreate now body => post_menu now body
  | MenuUpdate id body => put_menu id body
  | OrderGet id => widened (get_order_by_id id)
  | Seed now => get_seed now
  | Unmatched => widened route_not_found
  end.

(** *** The connection middleware *)

Inductive Connection : Type := Mongoose.

(** The module's [cachedConnection]. *)
Record Process : Type := mkProcess { cachedConnection : option Connection }.

(** [connectToDatabase()]; [connect] is the outcome of [mongoose.connect],
    were it called. *)
Definition connectToDatabase (connect : result Connection) (p : Process)
    : result Connection * Process :=
  match cachedConnection p with
  | Some connection => (Return connection, p)
  | None =>
      match connect with
      | Return connection => (Return connection, mkProcess (Some connection))
      | Throw error => (Throw error, p)
      end
  end.

(** A request through the application: the middleware that ensures the
    connection, then the route. *)
Definition app (connect : result Connection) (route : Route) (o : list bool)
    (ps : Process * Store) : ApiResponse * (Process * Store) :=
  match connectToDatabase connect ps.1 with
  | (Return _, p) =>
      let '(r, s) := serve_api (dispatch route) o ps.2 in (r, (p, s))
  | (Throw error, p) =>
      (mkApiResponse 500
         (JOf (JError "Database connection failed" (Some error))),
       (p, ps.2))
  end.
End more_models.

(** An update validator for the witnesses: a required string is not set to
    the empty string. *)
Definition required_on_update (b : MenuItemBody.t) : result unit :=
  if bool_decide (MenuItemBody.name b = Some "") then Throw (ValidationError "name")
  else if bool_decide (MenuItemBody.description b = Some "")
       then Throw (ValidationError "description")
       else Return tt.

(** ** The rest of the client (App.js) *)

(** [cart.reduce((sum, item) => sum + item.quantity, 0)] *)
Definition totalItems (cart : list Item.t) : Z :=
  fold_left (λ sum item, sum + Item.quantity item) cart 0.

(** [cart.reduce((sum, item) => sum + (item.price * item.quantity), 0)] *)
Definition totalPrice (cart : list Item.t) : Q :=
  fold_left (λ sum item, (sum + Item.price item * inject_Z (Item.quantity item))%Q)
    cart 0%Q.

(** [getSessionId()]: [localStorage] before and after; [random] is
    [Math.random().toString(36).substr(2, 9)]. *)
Definition getSessionId (now : Date) (random : string)
    (localStorage : gmap string string) : string * gmap string string :=
  let generated := "session_" +:+ pretty now +:+ "_" +:+ random in
  match localStorage !! "sessionId" with
  | Some sessionId =>
      if bool_decide (sessionId = "")
      then (generated, <["sessionId" := generated]> localStorage)
      else (sessionId, localStorage)
  | None => (generated, <["sessionId" := generated]> localStorage)
  end.

(** [response.ok] *)
Definition response_ok (r : Response) : bool :=
  (200 <=? statusCode r) && (statusCode r <=? 299).

(** [data.items || []] *)
Definition items_or_empty (data : Json) : list Item.t :=
  match data with
  | JCart c => Cart.items c
  | JOrder o => Order.items o
  | _ => []
  end.

(** [fetchCart()]: the cart given to [setCart], from the local cart;
    [response] is what [fetch] resolves to, [None] when it rejects. *)
Definition fetchCart (response : option Response) (cart : list Item.t)
    : list Item.t :=
  match response with
  | Some r => if response_ok r then items_or_empty (json r) else cart
  | None => cart
  end.

Definition guest : CustomerInfo.t :=
  CustomerInfo.mk (Some "Guest Customer") (Some "guest@example.com")
    (Some "555-0000").

(** [checkout()]: the body posted to [/orders], if any, and the local cart
    afterwards; [send] is the exchange with the server. *)
Definition checkout (send : OrderBody.t → option Response) (sessionId : string)
    (cart : list Item.t) : option OrderBody.t * list Item.t :=
  if bool_decide (length cart = 0%nat) then (None, cart)
  else
    let total := totalPrice cart in
    let customerInfo := guest in
    let body :=
      OrderBody.mk (Some cart) (Some total) (Some customerInfo) None
        (Some sessionId) None in
    match send body with
    | Some response =>
        if response_ok response then (Some body, []) else (Some body, cart)
    | None => (Some body, cart)
    end.

(** [clearCart()]: whether [DELETE /cart/:sessionId] is sent, and the local
    cart afterwards; [confirmed] is the answer to [window.confirm]. *)
Definition clearCart (confirmed : bool) (cart : list Item.t) : bool * list Item.t :=
  if confirmed then (true, []) else (false, cart).

(** The names of the entries of a cart. *)
Definition cart_names (cart : list Item.t) : list string := Item.name <$> cart.

(** ** Store invariants *)

(** The identifiers of a collection are unique and were issued. *)
Definition ids_wf {A} (oid : A → ObjectId) (n : ObjectId) (c : list A) : Prop :=
  NoDup (oid <$> c) ∧ Forall (λ d, (oid d < n)%N) c.

(** A stored order has items, a total price and a valid status. *)
Definition order_valid (o : Order.t) : Prop :=
  Order.items o ≠ [] ∧ is_Some (Order.totalPrice o) ∧ Order.status o ∈ validStatuses.

(** A store is well formed: identifiers are unique and were issued, the
    orders are valid, the carts are well formed. *)
Definition store_ok (s : Store) : Prop :=
  ids_wf MenuItem._id (next_id s) (MenuItems s)
  ∧ ids_wf Order._id (next_id s) (Orders s)
  ∧ Forall order_valid (Orders s)
  ∧ carts_ok s.

(** A session of requests through the application. *)
Fixpoint app_all (castObjectId : string → option ObjectId)
    (updateValidators : MenuItemBody.t → result unit)
    (reqs : list (result Connection * Route * list bool))
    (ps : Process * Store) : Process * Store :=
  match reqs with
  | [] => ps
  | (connect, route, o) :: reqs' =>
      app_all castObjectId updateValidators reqs'
        (app castObjectId updateValidators connect route o ps).2
  end.

(** The routes that only read, or answer without the store. *)
Definition read_only (route : Route) : bool :=
  match route with
  | Routed GetMenu | Routed GetOrders | Health | MenuGet _ | OrderGet _
  | Unmatched => true
  | _ => false
  end.

(** The routes that write to each collection. *)
Definition writes_MenuItems (route : Route) : bool :=
  match route with
  | Routed (DeleteMenu _) | MenuCreate _ _ | MenuUpdate _ _ | Seed _ => true
  | _ => false
  end.

Definition writes_Orders (route : Route) : bool :=
  match route with
  | Routed (PostOrders _ _) | Routed (PatchOrderStatus _ _)
  | Routed (DeleteOrder _) => true
  | _ => false
  end.

Definition writes_Carts (route : Route) : bool :=
  match route with
  | Routed (GetCart _ _) | Routed (PostCart _ _ _) | Routed (DeleteCart _)
  | Routed (PostOrders _ _) => true
  | _ => false
  end.

(** Unfolding of a handler down to the store calls. *)
Ltac unfold_handlers :=
  unfold serve_api, serve, dispatch, widened, handle, get_health,
    get_menu_by_id, post_menu, put_menu, get_order_by_id, get_seed,
    route_not_found, get_menu, delete_menu, get_cart, post_cart, delete_cart,
    get_orders, post_orders, patch_order_status, delete_order,
    try_catch_api, try_catch,
    MenuItem_findById, MenuItem_new, MenuItem_save,
    MenuItem_findByIdAndUpdate, MenuItem_deleteMany, MenuItem_insertMany,
    Order_findById, MenuItem_find_available, MenuItem_findByIdAndDelete,
    Cart_findOne, Cart_new, Cart_save, Cart_findOneAndDelete,
    Order_find_sorted, Order_new, Order_save,
    Order_findByIdAndUpdate_status, Order_findByIdAndDelete,
    cast_id in *.

(** Case analysis on the store's answers to the first calls of a request. *)
Ltac outage_cases o :=
  destruct o as [|[] [|[] [|[] ?]]].

(** ** More sample data *)

Definition fries_body : MenuItemBody.t :=
  MenuItemBody.mk (Some "Fries") (Some "x") (Some (249 # 100)) None None None None.

Definition nameless_body : MenuItemBody.t :=
  MenuItemBody.mk (Some "") (Some "x") (Some (249 # 100)) None None None None.

Definition retire_body : MenuItemBody.t :=
  MenuItemBody.mk None None None None (Some false) None None.

Definition id_of_menu_fries : string := "000000000000000000000001".
Definition id_of_next : string := "000000000000000000000007".

(** One step of the symbolic run of a handler: a case analysis on what the
    run branches on next. *)
Ltac step_handler :=
  match goal with
  | |- context [match ?o with [] => _ | _ :: _ => _ end] =>
      is_var o; destruct o as [|[] o]
  | |- context [match ?x with Some _ => _ | None => _ end] => destruct x eqn:?
  | |- context [match ?x with Return _ => _ | Throw _ => _ end] => destruct x eqn:?
  | |- context [if ?b then _ else _] => destruct b eqn:?
  end; cbn.

Ltac run_handler :=
  unfold_handlers;
  unfold bind, lift, fresh_id, ret, throw, await;
  cbn; repeat step_handler.

(** The documents [GET /api/seed] inserts, from the first identifier it is
    issued. *)
Definition seeded_menu (now : Date) (n : ObjectId) : list MenuItem.t :=
  [ MenuItem.mk n "Double-Double Burger"
      "Two beef patties, two slices of cheese, fresh lettuce & tomato"
      (599 # 100) "burgers" true None now;
    MenuItem.mk (N.succ n) "Cheeseburger"
      "Classic single patty burger with melted cheese"
      (399 # 100) "burgers" true None now;
    MenuItem.mk (N.succ (N.succ n)) "French Fries"
      "Golden, crispy fries made fresh"
      (249 # 100) "sides" true None now;
    MenuItem.mk (N.succ (N.succ (N.succ n))) "Shakes"
      "Chocolate, Strawberry, or Vanilla made with real ice cream"
      (299 # 100) "drinks" true None now ].

Arguments findOne : simpl never.
Arguments totalItems : simpl never.

(** * Properties *)

(** ** Collections *)

Section collection_facts.
Context {A : Type}.
Implicit Types (p : A → bool) (c : list A).

Lemma findOne_Some p c d : findOne p c = Some d → d ∈ c ∧ p d = true.
Proof.
  unfold findOne. intros H. apply find_some in H as [Hin Hp].
  split; [by apply list_elem_of_In | done].
Qed.

Lemma findOne_None p c d : findOne p c = None → d ∈ c → p d = false.
Proof.
  unfold findOne. intros H Hin.
  apply (find_none _ _ H). by apply list_elem_of_In.
Qed.

Lemma deleteOne_no_match p c : findOne p c = None → deleteOne p c = c.
Proof.
  unfold findOne. induction c as [|d c IH]; simpl; [done|].
  destruct (p d); [done|]. intros H. by rewrite IH.
Qed.

Lemma updateOne_no_match p f c : findOne p c = None → updateOne p f c = c.
Proof.
  unfold findOne. induction c as [|d c IH]; simpl; [done|].
  destruct (p d); [done|]. intros H. by rewrite IH.
Qed.

Lemma length_updateOne p f c : length (updateOne p f c) = length c.
Proof.
  induction c as [|d c IH]; simpl; [done|].
  destruct (p d); simpl; by rewrite ?IH.
Qed.

(** An update that keeps the matched document matching is found again. *)
Lemma findOne_updateOne p f c :
  (∀ d, p d = true → p (f d) = true) →
  findOne p (updateOne p f c) = f <$> findOne p c.
Proof.
  intros Hf. unfold findOne. induction c as [|d c IH]; simpl; [done|].
  destruct (p d) eqn:Hd; simpl.
  - by rewrite (Hf d Hd).
  - by rewrite Hd.
Qed.
End collection_facts.

Lemma filter_keeps_all {A} (P : A → Prop) `{∀ x, Decision (P x)} (l : list A) :
  Forall P l → filter P l = l.
Proof.
  induction 1 as [|x l Hx Hl IH]; [done|].
  by rewrite filter_cons_True, IH.
Qed.

(** With a unique key, deleting the first document of a key deletes every
    document of that key. *)
Lemma deleteOne_unique_key {A K} `{EqDecision K} (key : A → K) (k : K) (c : list A) :
  NoDup (key <$> c) →
  deleteOne (λ d, bool_decide (key d = k)) c = filter (λ d, key d ≠ k) c.
Proof.
  induction c as [|d c IH]; simpl; [done|].
  intros Hnd. apply NoDup_cons in Hnd as [Hd Hnd].
  rewrite filter_cons. destruct (decide (key d = k)) as [Hk|Hne].
  - rewrite bool_decide_eq_true_2 by done.
    rewrite decide_False by (intros H; by apply H).
    symmetry. apply filter_keeps_all, Forall_forall.
    intros d' Hin Heq. apply Hd. rewrite Hk, <- Heq.
    by apply list_elem_of_fmap_2.
  - rewrite bool_decide_eq_false_2 by done.
    rewrite decide_True by done. by rewrite IH.
Qed.

Lemma store_eta_Orders s : with_Orders (Orders s) s = s.
Proof. by destruct s. Qed.
Lemma store_eta_MenuItems s : with_MenuItems (MenuItems s) s = s.
Proof. by destruct s. Qed.
Lemma store_eta_Carts s : with_Carts (Carts s) s = s.
Proof. by destruct s. Qed.

(** ** Sorting newest first *)

Lemma insert_newest_first_Permutation o l : insert_newest_first o l ≡ₚ o :: l.
Proof.
  induction l as [|o' l IH]; simpl; [done|].
  destruct (Order.orderDate o' <=? Order.orderDate o); [done|].
  rewrite IH. apply perm_swap.
Qed.

Lemma sort_orderDate_desc_Permutation l : sort_orderDate_desc l ≡ₚ l.
Proof.
  induction l as [|o l IH]; simpl; [done|].
  rewrite insert_newest_first_Permutation. by rewrite IH.
Qed.

Lemma insert_newest_first_sorted o l :
  StronglySorted newer_or_same l →
  StronglySorted newer_or_same (insert_newest_first o l).
Proof.
  induction 1 as [|o' l Hs IH Hall]; simpl.
  - repeat constructor.
  - destruct (Z.leb_spec (Order.orderDate o') (Order.orderDate o)) as [Hle|Hlt].
    + constructor; [by constructor|].
      constructor; [done|].
      eapply Forall_impl; [exact Hall|].
      unfold newer_or_same. intros x Hx. lia.
    + constructor; [done|].
      rewrite insert_newest_first_Permutation.
      constructor; [unfold newer_or_same; lia|done].
Qed.

Lemma sort_orderDate_desc_sorted l :
  StronglySorted newer_or_same (sort_orderDate_desc l).
Proof.
  induction l as [|o l IH]; simpl; [constructor|].
  by apply insert_newest_first_sorted.
Qed.

(** ** Menu listing *)

Lemma filter_available_sublist l : sublist (List.filter MenuItem.available l) l.
Proof.
  induction l as [|m l IH]; simpl; [constructor|].
  destruct (MenuItem.available m); by constructor.
Qed.

(** C7. [GET /api/menu], served by the store, answers 200 with exactly the
    stored menu items whose [available] is true, in stored order: an item
    is in the response if and only if it is stored and available, so no item
    with [available = false] is ever listed.  The store is left as it was. *)
Theorem get_menu_lists_exactly_available (s : Store) :
  ∃ items,
    serve get_menu [] s = (res_json (JMenuItems items), s)
    ∧ sublist items (MenuItems s)
    ∧ ∀ m, m ∈ items ↔ m ∈ MenuItems s ∧ MenuItem.available m = true.
Proof.
  exists (List.filter MenuItem.available (MenuItems s)).
  split; [reflexivity|]. split; [apply filter_available_sublist|].
  intros m. rewrite !list_elem_of_In. apply filter_In.
Qed.

(** ** Order listing *)

(** C9. [GET /api/orders], served by the store, answers 200 with all the
    stored orders (a permutation of the collection), every order dated no
    earlier than all the orders listed after it: newest first.  The store is
    left as it was. *)
Theorem get_orders_all_newest_first (s : Store) :
  ∃ orders,
    serve get_orders [] s = (res_json (JOrders orders), s)
    ∧ orders ≡ₚ Orders s
    ∧ StronglySorted (λ a b, Order.orderDate b ≤ Order.orderDate a) orders.
Proof.
  exists (sort_orderDate_desc (Orders s)).
  split; [reflexivity|]. split.
  - apply sort_orderDate_desc_Permutation.
  - apply sort_orderDate_desc_sorted.
Qed.

(** ** Order creation *)

(** C2. [POST /api/orders] with a body whose [items] is missing or is the
    empty list answers 400 "Order must contain at least one item" and leaves
    the whole store, so the Orders collection, unchanged - whatever the rest
    of the body and whether or not the store is reachable. *)
Theorem post_orders_rejects_no_items (now : Date) (body : OrderBody.t)
    (o : list bool) (s : Store) :
  OrderBody.items body = None ∨ OrderBody.items body = Some [] →
  serve (post_orders now body) o s
  = (res_status_json 400 (JError "Order must contain at least one item" None), s).
Proof.
  intros H. unfold serve, post_orders, try_catch.
  assert (no_items (OrderBody.items body) = true) as ->.
  { by destruct H as [-> | ->]. }
  reflexivity.
Qed.

Lemma post_orders_rejects_no_items_witness :
  (OrderBody.items body_empty_items = None
   ∨ OrderBody.items body_empty_items = Some [])
  ∧ serve (post_orders 2000 body_empty_items) [] sample_store
    = (res_status_json 400 (JError "Order must contain at least one item" None),
       sample_store).
Proof.
  split; [right; reflexivity|].
  apply (post_orders_rejects_no_items 2000 body_empty_items [] sample_store).
  right. reflexivity.
Defined.

Lemma pending_is_valid : "pending" ∈ validStatuses.
Proof. apply list_elem_of_here. Qed.

Lemma validate_order_pending o :
  Order.status o = "pending" →
  validate_order o
  = match Order.totalPrice o with
    | None => Throw (ValidationError "totalPrice")
    | Some _ => Return tt
    end.
Proof.
  intros Hs. unfold validate_order. destruct (Order.totalPrice o); [|done].
  rewrite Hs. by rewrite (bool_decide_eq_true_2 _ pending_is_valid).
Qed.

(** C4. Whenever [POST /api/orders] succeeds (answers 201), the order it
    answers with is the one appended to the Orders collection and its status
    is "pending" - whatever [status] the body carried, which the handler
    never reads. *)
Theorem post_orders_forces_pending (now : Date) (body : OrderBody.t)
    (o : list bool) (s : Store) (r : Response) (s' : Store) :
  serve (post_orders now body) o s = (r, s') →
  statusCode r = 201 →
  ∃ order,
    json r = JOrder order
    ∧ Orders s' = Orders s ++ [order]
    ∧ Order.status order = "pending".
Proof.
  unfold serve, post_orders, try_catch.
  post_orders_cases body o.
  all: intros [= <- <-]; cbn; try discriminate.
  all: intros _; eexists; split_and!; reflexivity.
Qed.

Lemma post_orders_forces_pending_witness :
  statusCode
    (serve (post_orders 2000 (order_body (Some "s1") (Some "delivered")))
       [] sample_store).1 = 201
  ∧ ∃ order,
      json (serve (post_orders 2000 (order_body (Some "s1") (Some "delivered")))
              [] sample_store).1 = JOrder order
      ∧ Orders (serve (post_orders 2000 (order_body (Some "s1") (Some "delivered")))
                  [] sample_store).2
        = Orders sample_store ++ [order]
      ∧ Order.status order = "pending".
Proof.
  split; [reflexivity|].
  apply (post_orders_forces_pending 2000
           (order_body (Some "s1") (Some "delivered")) [] sample_store);
    reflexivity.
Defined.




(** ** Order status *)

Lemma includes_Some l v st : v = Some st → st ∈ l → includes l v = true.
Proof. intros -> Hin. by apply bool_decide_eq_true_2. Qed.

Lemma order_has_id_set_status i st o :
  order_has_id i (Order.set_status st o) = order_has_id i o.
Proof. done. Qed.

(** C3, as the specification states its second part, on [sample_store] with
    the identifier "abc" and the status "ready": the status is valid and no
    order has that identifier, so the answer would be 404.  It is not: "abc"
    does not cast to an [ObjectId], the query raises and the handler's
    [catch] answers 400 "Failed to update order status". *)
Lemma patch_order_status_malformed_id_not_404 :
  ¬ (includes validStatuses (StatusBody.status (StatusBody.mk (Some "ready")))
     = true →
     (∀ order, order ∈ Orders sample_store →
               castHex24 id_malformed ≠ Some (Order._id order)) →
     statusCode
       (serve (patch_order_status castHex24 id_malformed
                 (StatusBody.mk (Some "ready"))) [] sample_store).1 = 404).
Proof.
  intros H.
  assert (statusCode
            (serve (patch_order_status castHex24 id_malformed
                      (StatusBody.mk (Some "ready"))) [] sample_store).1 = 400)
    as H400 by reflexivity.
  rewrite H in H400; [discriminate H400|reflexivity|].
  intros order _ [=].
Qed.

(** C3, amended.  For [PATCH /api/orders/:id/status]:
    - a status outside the six valid ones (or none at all) is answered 400
      "Invalid status" and the store is unchanged, whatever the identifier;
    - with a valid status, an identifier that does not cast to an
      [ObjectId] is answered 400 "Failed to update order status", store
      unchanged;
    - with a valid status and a well-formed identifier, served by the store:
      if no order has that identifier the answer is 404 "Order not found"
      and the store is unchanged; otherwise the answer is 200 with the order
      carrying the new status, and that is the order now stored under the
      identifier - whatever its status was before; the other collections
      are unchanged. *)
Theorem patch_order_status_cases (castObjectId : string → option ObjectId)
    (id : string) (body : StatusBody.t) (s : Store) :
  (includes validStatuses (StatusBody.status body) = false →
   ∀ o, serve (patch_order_status castObjectId id body) o s
        = (res_status_json 400 (JError "Invalid status" None), s))
  ∧ (∀ st, StatusBody.status body = Some st → st ∈ validStatuses →
      (castObjectId id = None →
       ∀ o, serve (patch_order_status castObjectId id body) o s
            = (res_status_json 400
                 (JError "Failed to update order status" (Some (CastError "_id"))), s))
      ∧ (∀ i, castObjectId id = Some i →
          match findOne (order_has_id i) (Orders s) with
          | None =>
              serve (patch_order_status castObjectId id body) [] s
              = (res_status_json 404 (JError "Order not found" None), s)
          | Some old =>
              ∃ s',
                serve (patch_order_status castObjectId id body) [] s
                = (res_json (JOrder (Order.set_status st old)), s')
                ∧ findOne (order_has_id i) (Orders s')
                  = Some (Order.set_status st old)
                ∧ Order.status (Order.set_status st old) = st
                ∧ length (Orders s') = length (Orders s)
                ∧ MenuItems s' = MenuItems s ∧ Carts s' = Carts s
          end)).
Proof.
  split.
  - intros Hbad o. unfold serve, patch_order_status, try_catch.
    by rewrite Hbad.
  - intros st Hst Hvalid.
    pose proof (includes_Some _ _ _ Hst Hvalid) as Hinc.
    unfold serve, patch_order_status, try_catch.
    rewrite Hinc, Hst. cbn.
    unfold Order_findByIdAndUpdate_status, cast_id, bind.
    split.
    + intros -> o. reflexivity.
    + intros i ->. cbn.
      destruct (findOne (order_has_id i) (Orders s)) as [old|] eqn:Hfind; cbn.
      * eexists. split; [reflexivity|]. cbn.
        rewrite findOne_updateOne, Hfind, length_updateOne; [done|].
        intros d Hd. by rewrite order_has_id_set_status.
      * rewrite updateOne_no_match by done. by rewrite store_eta_Orders.
Qed.

Lemma patch_order_status_cases_witness :
  StatusBody.status (StatusBody.mk (Some "pending")) = Some "pending"
  ∧ "pending" ∈ validStatuses
  ∧ castHex24 id_of_order_old = Some 5%N
  ∧ ∃ s',
      serve (patch_order_status castHex24 id_of_order_old
               (StatusBody.mk (Some "pending"))) [] sample_store
      = (res_json (JOrder (Order.set_status "pending" order_old)), s')
      ∧ findOne (order_has_id 5) (Orders s')
        = Some (Order.set_status "pending" order_old).
Proof.
  split; [reflexivity|]. split; [apply pending_is_valid|].
  split; [reflexivity|].
  destruct (patch_order_status_cases castHex24 id_of_order_old
              (StatusBody.mk (Some "pending")) sample_store) as [_ Hvalid].
  destruct (Hvalid "pending" eq_refl pending_is_valid) as [_ Hcast].
  destruct (Hcast 5%N eq_refl) as (s' & Hrun & Hfind & _).
  exists s'. split; [exact Hrun|exact Hfind].
Defined.

(** ** Deletions *)

(** C8, as the specification states it for menu items, on [sample_store]
    with the identifier "abc": no menu item has that identifier, so the
    answer would be 404.  It is not: "abc" does not cast to an [ObjectId],
    the query raises and the handler's [catch] answers 500 "Failed to delete
    menu item". *)
Lemma delete_menu_malformed_id_not_404 :
  ¬ ((∀ m, m ∈ MenuItems sample_store →
           castHex24 id_malformed ≠ Some (MenuItem._id m)) →
     statusCode (serve (delete_menu castHex24 id_malformed) [] sample_store).1
     = 404).
Proof.
  intros H.
  assert (statusCode (serve (delete_menu castHex24 id_malformed) [] sample_store).1
          = 500) as H500 by reflexivity.
  rewrite H in H500; [discriminate H500|].
  intros m _ [=].
Qed.

(** C8, amended.  Served by the store:
    - [DELETE /api/menu/:id] and [DELETE /api/orders/:id] with a well-formed
      identifier that no document of the collection has answer 404 ("Menu
      item not found", "Order not found") and leave the store unchanged;
    - with an identifier that does not cast to an [ObjectId] they answer 500
      ("Failed to delete menu item", "Failed to delete order"), store
      unchanged;
    - [DELETE /api/cart/:sessionId] answers 200 "Cart cleared successfully"
      whether or not the session has a cart; without one the store is
      unchanged. *)
Theorem delete_unknown_cases (castObjectId : string → option ObjectId)
    (id sessionId : string) (s : Store) :
  (∀ i, castObjectId id = Some i →
     (findOne (menu_has_id i) (MenuItems s) = None →
      serve (delete_menu castObjectId id) [] s
      = (res_status_json 404 (JError "Menu item not found" None), s))
     ∧ (findOne (order_has_id i) (Orders s) = None →
        serve (delete_order castObjectId id) [] s
        = (res_status_json 404 (JError "Order not found" None), s)))
  ∧ (castObjectId id = None →
     serve (delete_menu castObjectId id) [] s
     = (res_status_json 500
          (JError "Failed to delete menu item" (Some (CastError "_id"))), s)
     ∧ serve (delete_order castObjectId id) [] s
       = (res_status_json 500
            (JError "Failed to delete order" (Some (CastError "_id"))), s))
  ∧ (∃ s',
       serve (delete_cart sessionId) [] s
       = (res_json (JMessage "Cart cleared successfully"), s')
       ∧ (findOne (cart_of_session sessionId) (Carts s) = None → s' = s)).
Proof.
  split_and!.
  - intros i Hcast.
    unfold serve, delete_menu, delete_order, try_catch,
      MenuItem_findByIdAndDelete, Order_findByIdAndDelete, cast_id, bind.
    rewrite Hcast. cbn. split; intros Hnone; rewrite Hnone; cbn.
    + rewrite deleteOne_no_match by done. by rewrite store_eta_MenuItems.
    + rewrite deleteOne_no_match by done. by rewrite store_eta_Orders.
  - intros Hcast.
    unfold serve, delete_menu, delete_order, try_catch,
      MenuItem_findByIdAndDelete, Order_findByIdAndDelete, cast_id, bind.
    by rewrite Hcast.
  - eexists. split; [reflexivity|]. cbn. intros Hnone.
    rewrite deleteOne_no_match by done. apply store_eta_Carts.
Qed.

Lemma delete_unknown_cases_witness :
  castHex24 id_unknown = Some 255%N
  ∧ findOne (menu_has_id 255) (MenuItems sample_store) = None
  ∧ findOne (order_has_id 255) (Orders sample_store) = None
  ∧ findOne (cart_of_session "s9") (Carts sample_store) = None
  ∧ serve (delete_menu castHex24 id_unknown) [] sample_store
    = (res_status_json 404 (JError "Menu item not found" None), sample_store)
  ∧ serve (delete_order castHex24 id_unknown) [] sample_store
    = (res_status_json 404 (JError "Order not found" None), sample_store)
  ∧ serve (delete_cart "s9") [] sample_store
    = (res_json (JMessage "Cart cleared successfully"), sample_store).
Proof.
  destruct (delete_unknown_cases castHex24 id_unknown "s9" sample_store)
    as (Hknown & _ & (s' & Hcart & Hsame)).
  destruct (Hknown 255%N eq_refl) as [Hmenu Horder].
  do 4 (split; [reflexivity|]).
  split; [exact (Hmenu eq_refl)|]. split; [exact (Horder eq_refl)|].
  rewrite <- (Hsame eq_refl) at 2. exact Hcart.
Defined.

(** ** Carts *)

Lemma cart_of_session_true sid c :
  cart_of_session sid c = true → Cart.sessionId c = sid.
Proof. unfold cart_of_session. apply bool_decide_eq_true_1. Qed.

Lemma validate_cart_ok c : Cart.sessionId c ≠ "" → validate_cart c = Return tt.
Proof. intros H. unfold validate_cart. by rewrite bool_decide_eq_false_2. Qed.

Lemma findOne_app_new {A} (p : A → bool) (c : list A) (d : A) :
  findOne p c = None → p d = true → findOne p (c ++ [d]) = Some d.
Proof.
  unfold findOne. induction c as [|x c IH]; simpl.
  - by intros _ ->.
  - destruct (p x); [done|]. apply IH.
Qed.

(** Saving a found cart back puts it first among the carts of its session. *)
Lemma findOne_session_after_update sid (old new : Cart.t) (c : list Cart.t) :
  findOne (cart_of_session sid) c = Some old →
  Cart.sessionId new = sid →
  findOne (cart_of_session sid)
    (updateOne (cart_has_id (Cart._id old)) (λ _, new) c) = Some new.
Proof.
  intros Hfind Hnew.
  assert (cart_of_session sid new = true) as Hp.
  { by apply bool_decide_eq_true_2. }
  unfold findOne in *.
  induction c as [|d c IH]; simpl in *; [done|].
  destruct (cart_of_session sid d) eqn:Hd.
  - injection Hfind as ->.
    unfold cart_has_id at 1. rewrite bool_decide_eq_true_2 by done.
    simpl. by rewrite Hp.
  - destruct (cart_has_id (Cart._id old) d); simpl.
    + by rewrite Hp.
    + rewrite Hd. by apply IH.
Qed.

(** C5. [POST /api/cart/:sessionId], served by the store, answers 200 with
    the cart that is stored for the session afterwards; that cart's items
    are exactly the list of the body - nothing of the previous contents
    remains, so the empty list leaves an empty cart - and its [lastUpdated]
    is the time of the request.  Without a cart for the session, the cart is
    created (appended to the collection); with one, no document is added. *)
Theorem post_cart_replaces_items (now : Date) (sessionId : string)
    (body : CartBody.t) (s : Store) :
  sessionId ≠ "" →
  ∃ cart s',
    serve (post_cart now sessionId body) [] s = (res_json (JCart cart), s')
    ∧ findOne (cart_of_session sessionId) (Carts s') = Some cart
    ∧ Cart.sessionId cart = sessionId
    ∧ Cart.items cart = CartBody.items body
    ∧ Cart.lastUpdated cart = now
    ∧ match findOne (cart_of_session sessionId) (Carts s) with
      | None => Carts s' = Carts s ++ [cart]
      | Some _ => length (Carts s') = length (Carts s)
      end.
Proof.
  intros Hsid. unfold serve, post_cart, try_catch, bind, Cart_findOne, await.
  cbn.
  destruct (findOne (cart_of_session sessionId) (Carts s)) as [old|] eqn:Hfind;
    cbn.
  - apply findOne_Some in Hfind as Hold. destruct Hold as [_ Hold].
    apply cart_of_session_true in Hold.
    unfold Cart_save, bind, lift. cbn.
    rewrite validate_cart_ok by (cbn; congruence). cbn.
    eexists _, _. split; [reflexivity|]. cbn.
    split_and!; try done.
    + by apply findOne_session_after_update.
    + apply length_updateOne.
  - unfold Cart_save, bind, lift. cbn.
    rewrite validate_cart_ok by done. cbn. rewrite Hfind.
    eexists _, _. split; [reflexivity|]. cbn.
    split_and!; try done.
    apply findOne_app_new; [done|]. by apply bool_decide_eq_true_2.
Qed.

Lemma post_cart_replaces_items_witness :
  "s1" ≠ ""
  ∧ Cart.items cart_s1 ≠ []
  ∧ ∃ cart s',
      serve (post_cart 2000 "s1" (CartBody.mk [])) [] sample_store
      = (res_json (JCart cart), s')
      ∧ findOne (cart_of_session "s1") (Carts s') = Some cart
      ∧ Cart.items cart = []
      ∧ Cart.lastUpdated cart = 2000.
Proof.
  assert ("s1" ≠ "") as Hsid by (intros [=]).
  split; [exact Hsid|]. split; [intros [=]|].
  destruct (post_cart_replaces_items 2000 "s1" (CartBody.mk []) sample_store Hsid)
    as (cart & s' & Hrun & Hfind & _ & Hitems & Hdate & _).
  exists cart, s'. split_and!; [exact Hrun|exact Hfind|exact Hitems|exact Hdate].
Defined.

(** C6. [GET /api/cart/:sessionId] for a session without a cart, served by
    the store, answers 200 with a new cart of that session with no items,
    and that cart is appended to the Carts collection; a second get of the
    same session, at any later time, answers with the same cart and leaves
    the store as the first get left it: no further document is created. *)
Theorem get_cart_creates_once (now now' : Date) (sessionId : string) (s : Store) :
  sessionId ≠ "" →
  findOne (cart_of_session sessionId) (Carts s) = None →
  ∃ cart s',
    serve (get_cart now sessionId) [] s = (res_json (JCart cart), s')
    ∧ Cart.sessionId cart = sessionId
    ∧ Cart.items cart = []
    ∧ Carts s' = Carts s ++ [cart]
    ∧ serve (get_cart now' sessionId) [] s' = (res_json (JCart cart), s').
Proof.
  intros Hsid Hnone.
  unfold serve, get_cart, try_catch, bind, Cart_findOne, await. cbn.
  rewrite Hnone. cbn.
  unfold Cart_save, bind, lift. cbn.
  rewrite validate_cart_ok by done. cbn. rewrite Hnone.
  eexists _, _. split; [reflexivity|]. cbn.
  split_and!; try done.
  rewrite (findOne_app_new _ _ (Cart.mk (next_id s) sessionId [] now) Hnone).
  - reflexivity.
  - by apply bool_decide_eq_true_2.
Qed.

Lemma get_cart_creates_once_witness :
  "s9" ≠ ""
  ∧ findOne (cart_of_session "s9") (Carts sample_store) = None
  ∧ ∃ cart s',
      serve (get_cart 2000 "s9") [] sample_store = (res_json (JCart cart), s')
      ∧ Cart.items cart = []
      ∧ Carts s' = Carts sample_store ++ [cart]
      ∧ serve (get_cart 3000 "s9") [] s' = (res_json (JCart cart), s').
Proof.
  assert ("s9" ≠ "") as Hsid by (intros [=]).
  split; [exact Hsid|]. split; [reflexivity|].
  destruct (get_cart_creates_once 2000 3000 "s9" sample_store Hsid eq_refl)
    as (cart & s' & Hrun & _ & Hitems & Hcarts & Hagain).
  exists cart, s'. split_and!; [exact Hrun|exact Hitems|exact Hcarts|exact Hagain].
Defined.

(** ** The client's cart *)

Lemma addToCart_present (cart : list Item.t) (item : MenuItem.t) :
  (∃ i, i ∈ cart ∧ Item.name i = MenuItem.name item) →
  setCart (addToCart cart item)
  = List.map (λ cartItem,
                if named (MenuItem.name item) cartItem
                then with_quantity (Item.quantity cartItem + 1) cartItem
                else cartItem) cart.
Proof.
  intros (i & Hin & Hname). unfold addToCart. cbn.
  destruct (List.find (named (MenuItem.name item)) cart) eqn:Hfind; [done|].
  apply list_elem_of_In in Hin.
  pose proof (find_none _ _ Hfind i Hin) as Hno.
  unfold named in Hno. by rewrite bool_decide_eq_true_2 in Hno.
Qed.

Lemma updateQuantity_omap (cart : list Item.t) (name : string) (change : Z) :
  quantities_positive cart →
  setCart (updateQuantity cart name change)
  = omap (λ item,
            if named name item then
              if 0 <? Item.quantity item + change
              then Some (with_quantity (Item.quantity item + change) item)
              else None
            else Some item) cart.
Proof.
  unfold updateQuantity, quantities_positive. cbn.
  induction 1 as [|item cart Hq Hcart IH]; cbn; [done|].
  rewrite IH. destruct (named name item); cbn.
  - destruct (Z.ltb_spec 0 (Item.quantity item + change)) as [Hpos|Hneg].
    + rewrite Z.max_r by lia.
      destruct (Z.ltb_spec 0 (Item.quantity item + change)); [done|lia].
    + rewrite Z.max_l by lia. done.
  - destruct (Z.ltb_spec 0 (Item.quantity item)); [done|lia].
Qed.



(** ** The store invariant *)

Lemma deleteOne_sublist {A} (p : A → bool) (c : list A) :
  deleteOne p c `sublist_of` c.
Proof.
  induction c as [|d c IH]; simpl; [constructor|].
  destruct (p d); by constructor.
Qed.

Lemma carts_wf_succ n c : carts_wf n c → carts_wf (N.succ n) c.
Proof.
  intros (Hid & Hlt & Hsid & Hne). split_and!; [done| |done|done].
  eapply Forall_impl; [exact Hlt|]. intros d Hd. cbn in *. lia.
Qed.

Lemma carts_wf_deleteOne p n c : carts_wf n c → carts_wf n (deleteOne p c).
Proof.
  intros (Hid & Hlt & Hsid & Hne).
  pose proof (deleteOne_sublist p c) as Hsub. split_and!.
  - eapply sublist_NoDup; [exact Hid|]. by apply fmap_sublist.
  - apply Forall_forall. intros d Hd.
    apply (proj1 (Forall_forall _ _) Hlt). eapply elem_of_sublist; done.
  - eapply sublist_NoDup; [exact Hsid|]. by apply fmap_sublist.
  - apply Forall_forall. intros d Hd.
    apply (proj1 (Forall_forall _ _) Hne). eapply elem_of_sublist; done.
Qed.

Lemma carts_wf_insert n c sid items now :
  carts_wf n c →
  sid ≠ "" →
  findOne (cart_of_session sid) c = None →
  carts_wf (N.succ n) (c ++ [Cart.mk n sid items now]).
Proof.
  intros (Hid & Hlt & Hsid & Hne) Hsid' Hnone. split_and!.
  - rewrite fmap_app. apply NoDup_app. split_and!; [done| |].
    + intros i Hi Hn. cbn in Hn. apply list_elem_of_singleton in Hn as ->.
      apply list_elem_of_fmap in Hi as (d & Heq & Hd).
      pose proof (proj1 (Forall_forall _ _) Hlt d Hd) as Hlt'. cbn in Hlt'. lia.
    + cbn. apply NoDup_singleton.
  - apply Forall_app. split.
    + eapply Forall_impl; [exact Hlt|]. intros d Hd. cbn in *. lia.
    + repeat constructor. cbn. lia.
  - rewrite fmap_app. apply NoDup_app. split_and!; [done| |].
    + intros k Hk Hn. cbn in Hn. apply list_elem_of_singleton in Hn as ->.
      apply list_elem_of_fmap in Hk as (d & Heq & Hd).
      pose proof (findOne_None _ _ d Hnone Hd) as Hno.
      unfold cart_of_session in Hno. by rewrite bool_decide_eq_true_2 in Hno.
    + cbn. apply NoDup_singleton.
  - apply Forall_app. split; [done|]. by repeat constructor.
Qed.

Lemma NoDup_fmap_inj_on {A B} (f : A → B) (l : list A) (x y : A) :
  NoDup (f <$> l) → x ∈ l → y ∈ l → f x = f y → x = y.
Proof.
  induction l as [|a l IH]; cbn; [by intros _ ?%elem_of_nil|].
  intros [Ha Hl]%NoDup_cons Hx Hy Hf.
  apply elem_of_cons in Hx as [->|Hx]; apply elem_of_cons in Hy as [->|Hy].
  - done.
  - destruct Ha. rewrite Hf. by apply list_elem_of_fmap_2.
  - destruct Ha. rewrite <- Hf. by apply list_elem_of_fmap_2.
  - by apply IH.
Qed.

Lemma fmap_updateOne_same {A B} (g : A → B) (p : A → bool) (f : A → A) (c : list A) :
  (∀ d, d ∈ c → p d = true → g (f d) = g d) →
  g <$> updateOne p f c = g <$> c.
Proof.
  induction c as [|d c IH]; cbn; [done|]. intros Hg.
  destruct (p d) eqn:Hd; cbn.
  - by rewrite Hg; [|apply list_elem_of_here|].
  - rewrite IH; [done|]. intros d' Hin. apply Hg. by apply list_elem_of_further.
Qed.

Lemma elem_of_updateOne {A} (p : A → bool) (f : A → A) (c : list A) (x : A) :
  x ∈ updateOne p f c → x ∈ c ∨ ∃ d, d ∈ c ∧ p d = true ∧ x = f d.
Proof.
  induction c as [|d c IH]; cbn; [by left|].
  destruct (p d) eqn:Hd.
  - intros [->|Hx]%elem_of_cons.
    + right. exists d. split; [apply list_elem_of_here|done].
    + left. by apply list_elem_of_further.
  - intros [->|Hx]%elem_of_cons; [left; apply list_elem_of_here|].
    destruct (IH Hx) as [Hin|(d' & Hin & Hp & ->)].
    + left. by apply list_elem_of_further.
    + right. exists d'. split; [by apply list_elem_of_further|done].
Qed.

Lemma carts_wf_update n c old new :
  carts_wf n c →
  old ∈ c →
  Cart._id new = Cart._id old →
  Cart.sessionId new = Cart.sessionId old →
  carts_wf n (updateOne (cart_has_id (Cart._id old)) (λ _, new) c).
Proof.
  intros (Hid & Hlt & Hsid & Hne) Hold Hi Hs.
  assert (∀ d, d ∈ c → cart_has_id (Cart._id old) d = true → d = old) as Hsame.
  { intros d Hd Hp. apply bool_decide_eq_true_1 in Hp.
    by apply (NoDup_fmap_inj_on Cart._id c). }
  split_and!.
  - rewrite fmap_updateOne_same; [done|].
    intros d Hd Hp. rewrite (Hsame d Hd Hp). done.
  - apply Forall_forall. intros x Hx.
    apply elem_of_updateOne in Hx as [Hx|(d & Hd & Hp & ->)].
    + by apply (proj1 (Forall_forall _ _) Hlt).
    + rewrite Hi. by apply (proj1 (Forall_forall _ _) Hlt).
  - rewrite fmap_updateOne_same; [done|].
    intros d Hd Hp. rewrite (Hsame d Hd Hp). done.
  - apply Forall_forall. intros x Hx.
    apply elem_of_updateOne in Hx as [Hx|(d & Hd & Hp & ->)].
    + by apply (proj1 (Forall_forall _ _) Hne).
    + rewrite Hs. by apply (proj1 (Forall_forall _ _) Hne).
Qed.

(** *** A Hoare logic for handlers *)

Lemma hoare_ret {A} (P : Store → Prop) (a : A) Q E :
  (∀ s, P s → Q a s) → hoare P (ret a) Q E.
Proof. intros H w Hw. by apply H. Qed.

Lemma hoare_throw {A} (P : Store → Prop) e (Q : A → Store → Prop) E :
  (∀ s, P s → E s) → hoare P (throw e) Q E.
Proof. intros H w Hw. by apply H. Qed.

Lemma hoare_lift {A} (P : Store → Prop) (r : result A) Q E :
  (∀ s, P s → match r with Return a => Q a s | Throw _ => E s end) →
  hoare P (lift r) Q E.
Proof. intros H w Hw. unfold lift. specialize (H _ Hw). by destruct r. Qed.

Lemma hoare_bind {A B} (P : Store → Prop) (m : M A) (k : A → M B) R Q E :
  hoare P m R E → (∀ a, hoare (R a) (k a) Q E) → hoare P (bind m k) Q E.
Proof.
  intros Hm Hk w Hw. unfold bind. specialize (Hm w Hw).
  destruct (m w) as [[a|e] w']; [by apply Hk|done].
Qed.

Lemma hoare_await {A} (P : Store → Prop) (op : Store → result A * Store) Q E :
  (∀ s, P s → E s) →
  (∀ s, P s → match op s with
              | (Return a, s') => Q a s'
              | (Throw _, s') => E s'
              end) →
  hoare P (await op) Q E.
Proof.
  intros Hout Hop [s o] Hs. unfold await. cbn in *.
  specialize (Hop s Hs). specialize (Hout s Hs).
  destruct o as [|[] o]; cbn; [|done|]; by destruct (op s) as [[a|e] s'].
Qed.

Lemma hoare_weaken {A} (P P' : Store → Prop) (m : M A) (Q Q' : A → Store → Prop) E :
  hoare P' m Q' E → (∀ s, P s → P' s) → (∀ a s, Q' a s → Q a s) →
  hoare P m Q E.
Proof.
  intros Hm HP HQ w Hw. specialize (Hm w (HP _ Hw)).
  destruct (m w) as [[a|e] w']; [by apply HQ|done].
Qed.

Lemma hoare_try_catch (P I : Store → Prop) (body : M Response) on_error o s :
  hoare P body (λ _, I) I → P s → I (serve (try_catch body on_error) o s).2.
Proof.
  intros Hbody Hs. unfold serve, try_catch.
  specialize (Hbody (mkWorld s o) Hs).
  by destruct (body (mkWorld s o)) as [[r|e] w'].
Qed.

(** A computation that only reads, or writes outside the carts and the
    identifier generator. *)
Lemma hoare_await_frame {A} (op : Store → result A * Store) :
  (∀ s, Carts (op s).2 = Carts s ∧ next_id (op s).2 = next_id s) →
  hoare carts_ok (await op) (λ _, carts_ok) carts_ok.
Proof.
  intros Hop. apply hoare_await; [done|]. intros s Hs.
  destruct (Hop s) as [Hc Hn]. unfold carts_ok in *.
  destruct (op s) as [[a|e] s']; cbn in *; by rewrite Hc, Hn.
Qed.

Lemma hoare_cast_id castObjectId raw :
  hoare carts_ok (cast_id castObjectId raw) (λ _, carts_ok) carts_ok.
Proof.
  unfold cast_id. destruct (castObjectId raw); [by apply hoare_ret|by apply hoare_throw].
Qed.

Lemma hoare_Cart_findOne sid :
  hoare carts_ok (Cart_findOne sid)
    (λ found s, carts_ok s
                ∧ found = mkDoc false <$> findOne (cart_of_session sid) (Carts s))
    carts_ok.
Proof. apply hoare_await; [done|]. intros s Hs. by cbn. Qed.

Lemma hoare_Cart_new now sid items :
  hoare carts_ok (Cart_new now sid items) cart_is_fresh carts_ok.
Proof. intros [s o] Hs. by cbn. Qed.

Lemma cart_is_fresh_ok c s : cart_is_fresh c s → carts_ok s.
Proof.
  intros (_ & Hwf & Hn). unfold carts_ok. rewrite Hn. by apply carts_wf_succ.
Qed.

Lemma hoare_Cart_save_new c :
  hoare (cart_is_fresh c) (Cart_save c) (λ _, carts_ok) carts_ok.
Proof.
  unfold Cart_save. eapply hoare_bind.
  - apply (hoare_lift _ _
             (λ _ s, cart_is_fresh c s ∧ Cart.sessionId (doc c) ≠ "")).
    intros s Hs. unfold validate_cart. case_bool_decide as Hsid; [|done].
    by apply (cart_is_fresh_ok c).
  - intros ?. apply hoare_await; [intros s [Hs _]; by apply (cart_is_fresh_ok c)|].
    intros s [(Hnew & Hwf & Hn) Hsid]. rewrite Hnew.
    destruct (findOne _ (Carts s)) eqn:Hfind; cbn.
    + apply (cart_is_fresh_ok c). by split_and!.
    + unfold carts_ok. cbn. rewrite Hn.
      destruct c as [b [i sid items now]]. cbn in *.
      by apply carts_wf_insert.
Qed.

Lemma hoare_Cart_save_stored c :
  hoare (cart_is_stored c) (Cart_save c) (λ _, carts_ok) carts_ok.
Proof.
  unfold Cart_save. eapply hoare_bind.
  - apply (hoare_lift _ _ (λ _, cart_is_stored c)).
    intros s Hs. destruct (validate_cart (doc c)); [done|]. apply Hs.
  - intros ?. apply hoare_await; [by intros s [? _]|].
    intros s (Hok & Hnew & old & Hold & Hid & Hsid). rewrite Hnew. cbn.
    unfold carts_ok in *. cbn. rewrite Hid. by apply carts_wf_update.
Qed.

Lemma hoare_Cart_findOneAndDelete sid :
  hoare carts_ok (Cart_findOneAndDelete sid) (λ _, carts_ok) carts_ok.
Proof.
  apply hoare_await; [done|]. intros s Hs. cbn.
  unfold carts_ok in *. cbn. by apply carts_wf_deleteOne.
Qed.

Lemma get_cart_keeps_carts_ok now sessionId o st :
  carts_ok st → carts_ok (serve (get_cart now sessionId) o st).2.
Proof.
  apply hoare_try_catch.
  eapply hoare_bind; [apply hoare_Cart_findOne|].
  intros found.
  eapply (hoare_bind _ _ _ (λ _, carts_ok)); [|intros c; by apply hoare_ret].
  destruct found as [c|].
  - apply hoare_ret. by intros s [Hs _].
  - eapply hoare_bind.
    + eapply hoare_weaken; [apply hoare_Cart_new| |done]. by intros s [Hs _].
    + intros c. eapply hoare_bind; [apply hoare_Cart_save_new|].
      intros ?. by apply hoare_ret.
Qed.

Lemma post_cart_keeps_carts_ok now sessionId body o st :
  carts_ok st → carts_ok (serve (post_cart now sessionId body) o st).2.
Proof.
  apply hoare_try_catch.
  eapply hoare_bind; [apply hoare_Cart_findOne|].
  intros found. destruct found as [c|].
  - eapply hoare_bind.
    + apply (hoare_ret _ _ (λ c', cart_is_stored c')).
      intros s [Hs Hfound].
      destruct (findOne (cart_of_session sessionId) (Carts s)) as [old|] eqn:Hfind;
        [|done].
      injection Hfound as ->. apply findOne_Some in Hfind as [Hin _].
      split_and!; [done|done|]. by exists old.
    + intros c'. eapply hoare_bind; [apply hoare_Cart_save_stored|].
      intros ?. by apply hoare_ret.
  - eapply hoare_bind.
    + eapply hoare_weaken; [apply hoare_Cart_new| |done]. by intros s [Hs _].
    + intros c'. eapply hoare_bind; [apply hoare_Cart_save_new|].
      intros ?. by apply hoare_ret.
Qed.

Lemma delete_cart_keeps_carts_ok sessionId o st :
  carts_ok st → carts_ok (serve (delete_cart sessionId) o st).2.
Proof.
  apply hoare_try_catch.
  eapply hoare_bind; [apply hoare_Cart_findOneAndDelete|].
  intros ?. by apply hoare_ret.
Qed.

Lemma post_orders_keeps_carts_ok now body o st :
  carts_ok st → carts_ok (serve (post_orders now body) o st).2.
Proof.
  apply hoare_try_catch.
  destruct (no_items (OrderBody.items body)); [by apply hoare_ret|].
  eapply (hoare_bind _ _ _ (λ _, carts_ok)).
  { intros [s o'] Hs. unfold carts_ok in *. cbn. by apply carts_wf_succ. }
  intros newOrder. eapply (hoare_bind _ _ _ (λ _, carts_ok)).
  { unfold Order_save. eapply hoare_bind.
    - apply (hoare_lift _ _ (λ _, carts_ok)).
      intros s Hs. by destruct (validate_order (doc newOrder)).
    - intros ?. apply hoare_await_frame. intros s.
      by destruct (isNew newOrder). }
  intros ?.
  eapply (hoare_bind _ _ _ (λ _, carts_ok)); [|intros ?; by apply hoare_ret].
  destruct (truthy (OrderBody.sessionId body)); [|by apply hoare_ret].
  eapply hoare_bind; [apply hoare_Cart_findOneAndDelete|].
  intros ?. by apply hoare_ret.
Qed.

(** Every request leaves the carts well formed: one cart per session,
    unique identifiers - whatever the store's outages. *)
Theorem handle_keeps_carts_ok castObjectId req o st :
  carts_ok st → carts_ok (serve (handle castObjectId req) o st).2.
Proof.
  destruct req; cbn [handle].
  - apply hoare_try_catch.
    eapply hoare_bind; [by apply hoare_await_frame|].
    intros items. by apply hoare_ret.
  - apply hoare_try_catch. eapply hoare_bind.
    + unfold MenuItem_findByIdAndDelete.
      eapply hoare_bind; [apply hoare_cast_id|].
      intros i. by apply hoare_await_frame.
    + intros [d|]; by apply hoare_ret.
  - apply get_cart_keeps_carts_ok.
  - apply post_cart_keeps_carts_ok.
  - apply delete_cart_keeps_carts_ok.
  - apply hoare_try_catch.
    eapply hoare_bind; [by apply hoare_await_frame|].
    intros orders. by apply hoare_ret.
  - apply post_orders_keeps_carts_ok.
  - apply hoare_try_catch.
    destruct (negb _); [by apply hoare_ret|].
    eapply hoare_bind.
    + unfold Order_findByIdAndUpdate_status.
      eapply hoare_bind; [apply hoare_cast_id|].
      intros i. by apply hoare_await_frame.
    + intros [d|]; by apply hoare_ret.
  - apply hoare_try_catch. eapply hoare_bind.
    + unfold Order_findByIdAndDelete.
      eapply hoare_bind; [apply hoare_cast_id|].
      intros i. by apply hoare_await_frame.
    + intros [d|]; by apply hoare_ret.
Qed.

(** Every store reached from the empty one has well-formed carts; in
    particular one cart per session and no cart of an empty [sessionId], the
    hypotheses of the cart-deletion property of order creation. *)
Corollary reachable_carts_ok castObjectId reqs :
  carts_ok (serve_all castObjectId reqs empty_store).
Proof.
  assert (carts_ok empty_store) as Hempty.
  { unfold carts_ok, carts_wf. cbn. split_and!; constructor. }
  revert Hempty. generalize empty_store.
  induction reqs as [|[req o] reqs IH]; intros s Hs; cbn; [done|].
  apply IH. by apply handle_keeps_carts_ok.
Qed.

(** * Further properties: the other routes, the invariants of the store, the
    client *)

(** ** Reading *)

(** X1. The routes that read - the menu list, a menu item, the order list,
    an order, the health check - and the 404 handler leave the store as it
    is, whatever the store's outages. *)
Theorem read_only_routes_keep_store castObjectId updateValidators
    (route : Route) (o : list bool) (s : Store) :
  read_only route = true →
  (serve_api (dispatch castObjectId updateValidators route) o s).2 = s.
Proof.
  destruct route as [[]| | | | | | |]; try discriminate; intros _.
  all: unfold_handlers; unfold bind; cbn.
  all: try destruct (castObjectId id); cbn; try done.
  all: outage_cases o; cbn; try done.
  all: destruct (findOne _ _); done.
Qed.

(** ** Lookups by key *)

Section key_facts.
Context {A K : Type} `{EqDecision K} (key : A → K).
Implicit Types (c : list A) (k : K).

Lemma findOne_key_elem c d :
  NoDup (key <$> c) → d ∈ c →
  findOne (λ x, bool_decide (key x = key d)) c = Some d.
Proof.
  unfold findOne. induction c as [|x c IH]; cbn; [by intros _ ?%elem_of_nil|].
  intros [Hx Hc]%NoDup_cons [->|Hd]%elem_of_cons.
  - by rewrite bool_decide_eq_true_2.
  - rewrite bool_decide_eq_false_2; [by apply IH|].
    intros Heq. apply Hx. rewrite Heq. by apply list_elem_of_fmap_2.
Qed.

Lemma findOne_key_absent c k :
  (∀ d, d ∈ c → key d ≠ k) → findOne (λ x, bool_decide (key x = k)) c = None.
Proof.
  unfold findOne. induction c as [|x c IH]; cbn; [done|]. intros Hc.
  rewrite bool_decide_eq_false_2 by (apply Hc, list_elem_of_here).
  apply IH. intros d Hd. by apply Hc, list_elem_of_further.
Qed.

Lemma findOne_key_Some c k d :
  findOne (λ x, bool_decide (key x = k)) c = Some d → d ∈ c ∧ key d = k.
Proof.
  intros [Hin Hk]%findOne_Some. split; [done|].
  by apply bool_decide_eq_true in Hk.
Qed.

(** Deleting by one key does not change what another key finds. *)
Lemma findOne_deleteOne_other c k k' :
  k ≠ k' →
  findOne (λ x, bool_decide (key x = k'))
    (deleteOne (λ x, bool_decide (key x = k)) c)
  = findOne (λ x, bool_decide (key x = k')) c.
Proof.
  intros Hne. unfold findOne. induction c as [|x c IH]; cbn; [done|].
  destruct (decide (key x = k)) as [Hk|Hk].
  - rewrite (bool_decide_eq_true_2 _ Hk).
    rewrite bool_decide_eq_false_2; [done|congruence].
  - rewrite (bool_decide_eq_false_2 _ Hk). cbn. by rewrite IH.
Qed.

(** With a unique key, updating the first document of a key is updating
    every document of that key. *)
Lemma updateOne_unique_key c k (f : A → A) :
  NoDup (key <$> c) →
  updateOne (λ x, bool_decide (key x = k)) f c
  = (λ x, if bool_decide (key x = k) then f x else x) <$> c.
Proof.
  induction c as [|x c IH]; cbn; [done|].
  intros [Hx Hc]%NoDup_cons.
  destruct (decide (key x = k)) as [Hk|Hk].
  - rewrite (bool_decide_eq_true_2 _ Hk). f_equal.
    rewrite <- (list_fmap_id c) at 1. apply list_fmap_ext.
    intros j y Hy. cbn. rewrite bool_decide_eq_false_2; [done|].
    intros Heq. apply Hx. rewrite Hk, <- Heq.
    apply list_elem_of_fmap_2. by eapply list_elem_of_lookup_2.
  - rewrite (bool_decide_eq_false_2 _ Hk). by rewrite IH.
Qed.

Lemma findOne_filter_key_ne c k :
  findOne (λ x, bool_decide (key x = k)) (filter (λ x, key x ≠ k) c) = None.
Proof.
  apply findOne_key_absent. intros d Hd.
  apply list_elem_of_filter in Hd as [Hd _]. done.
Qed.
End key_facts.

(** X2. In a store whose identifiers are unique, [GET /api/menu/:id] and
    [GET /api/orders/:id], served by the store, answer 200 with the stored
    document that has the identifier, and 404 when the identifier is well
    formed and no stored document has it; a malformed identifier is answered
    500, whatever the outages.  The store is unchanged in every case. *)
Theorem get_by_id_finds_the_stored_document castObjectId (id : string) (s : Store) :
  NoDup (MenuItem._id <$> MenuItems s) →
  NoDup (Order._id <$> Orders s) →
  (∀ m, m ∈ MenuItems s → castObjectId id = Some (MenuItem._id m) →
     serve_api (get_menu_by_id castObjectId id) [] s
     = (mkApiResponse 200 (JMenuItem m), s))
  ∧ (∀ order, order ∈ Orders s → castObjectId id = Some (Order._id order) →
       serve (get_order_by_id castObjectId id) [] s
       = (res_json (JOrder order), s))
  ∧ (∀ i, castObjectId id = Some i →
       ((∀ m, m ∈ MenuItems s → MenuItem._id m ≠ i) →
        serve_api (get_menu_by_id castObjectId id) [] s
        = (mkApiResponse 404 (JOf (JError "Menu item not found" None)), s))
       ∧ ((∀ order, order ∈ Orders s → Order._id order ≠ i) →
          serve (get_order_by_id castObjectId id) [] s
          = (res_status_json 404 (JError "Order not found" None), s)))
  ∧ (castObjectId id = None →
     ∀ o,
       serve_api (get_menu_by_id castObjectId id) o s
       = (mkApiResponse 500
            (JOf (JError "Failed to fetch menu item" (Some (CastError "_id")))), s)
       ∧ serve (get_order_by_id castObjectId id) o s
         = (res_status_json 500
              (JError "Failed to fetch order" (Some (CastError "_id"))), s)).
Proof.
  intros Hmenu Horders. split_and!.
  - intros m Hm Hcast. unfold_handlers. unfold bind. rewrite Hcast. cbn.
    unfold menu_has_id. by rewrite (findOne_key_elem MenuItem._id _ _ Hmenu Hm).
  - intros order Hin Hcast. unfold_handlers. unfold bind. rewrite Hcast. cbn.
    unfold order_has_id. by rewrite (findOne_key_elem Order._id _ _ Horders Hin).
  - intros i Hcast. split; intros Hnone.
    + unfold_handlers. unfold bind. rewrite Hcast. cbn.
      unfold menu_has_id. by rewrite (findOne_key_absent MenuItem._id _ _ Hnone).
    + unfold_handlers. unfold bind. rewrite Hcast. cbn.
      unfold order_has_id. by rewrite (findOne_key_absent Order._id _ _ Hnone).
  - intros Hcast o. unfold_handlers. unfold bind. by rewrite Hcast.
Qed.

Lemma get_by_id_finds_the_stored_document_witness :
  NoDup (MenuItem._id <$> MenuItems sample_store)
  ∧ NoDup (Order._id <$> Orders sample_store)
  ∧ order_old ∈ Orders sample_store
  ∧ castHex24 id_of_order_old = Some (Order._id order_old)
  ∧ serve (get_order_by_id castHex24 id_of_order_old) [] sample_store
    = (res_json (JOrder order_old), sample_store).
Proof.
  assert (NoDup (MenuItem._id <$> MenuItems sample_store)) as Hmenu.
  { apply (bool_decide_unpack _). vm_compute. exact I. }
  assert (NoDup (Order._id <$> Orders sample_store)) as Horders.
  { apply (bool_decide_unpack _). vm_compute. exact I. }
  assert (order_old ∈ Orders sample_store) as Hin by apply list_elem_of_here.
  do 2 (split; [assumption|]). split; [exact Hin|]. split; [reflexivity|].
  destruct (get_by_id_finds_the_stored_document castHex24 id_of_order_old
              sample_store Hmenu Horders) as (_ & Horder & _).
  exact (Horder order_old Hin eq_refl).
Defined.

Lemma read_only_routes_keep_store_witness :
  read_only (MenuGet id_malformed) = true
  ∧ (serve_api (dispatch castHex24 required_on_update (MenuGet id_malformed))
       [true] sample_store).2 = sample_store.
Proof.
  split; [reflexivity|].
  apply (read_only_routes_keep_store castHex24 required_on_update
           (MenuGet id_malformed) [true] sample_store).
  reflexivity.
Defined.

(** ** Creating a menu item *)



(** X4. [POST /api/menu] with a body that lacks [name], [description] or
    [price], or whose [name] or [description] is the empty string, answers
    400 "Failed to create menu item" with a validation error; the three
    collections are unchanged (an identifier is consumed), whatever the
    outages. *)
Theorem post_menu_rejects_incomplete (now : Date) (body : MenuItemBody.t)
    (o : list bool) (s : Store) :
  MenuItemBody.name body = None ∨ MenuItemBody.name body = Some ""
  ∨ MenuItemBody.description body = None
  ∨ MenuItemBody.description body = Some ""
  ∨ MenuItemBody.price body = None →
  ∃ path,
    serve_api (post_menu now body) o s
    = (mkApiResponse 400
         (JOf (JError "Failed to create menu item" (Some (ValidationError path)))),
       with_next_id (N.succ (next_id s)) s).
Proof.
  unfold_handlers. unfold bind, lift, validate_menuItem, fresh_id, ret.
  destruct body as [[[|? ?]|] [[|? ?]|] [?|] ? ? ? ?]; cbn.
  all: intros H; try (eexists; reflexivity).
  all: exfalso; destruct H as [H|[H|[H|[H|H]]]]; discriminate H.
Qed.

Lemma post_menu_rejects_incomplete_witness :
  (MenuItemBody.name nameless_body = None
   ∨ MenuItemBody.name nameless_body = Some ""
   ∨ MenuItemBody.description nameless_body = None
   ∨ MenuItemBody.description nameless_body = Some ""
   ∨ MenuItemBody.price nameless_body = None)
  ∧ ∃ path,
      serve_api (post_menu 2000 nameless_body) [] sample_store
      = (mkApiResponse 400
           (JOf (JError "Failed to create menu item"
                   (Some (ValidationError path)))),
         with_next_id (N.succ (next_id sample_store)) sample_store).
Proof.
  split; [right; left; reflexivity|].
  apply (post_menu_rejects_incomplete 2000 nameless_body [] sample_store).
  right. left. reflexivity.
Defined.

Lemma post_menu_201 (now : Date) (body : MenuItemBody.t) (o : list bool)
    (s : Store) (r : ApiResponse) (s' : Store) :
  serve_api (post_menu now body) o s = (r, s') →
  apiStatus r = 201 →
  ∃ m,
    apiJson r = JMenuItem m
    ∧ s' = with_MenuItems (MenuItems s ++ [m]) (with_next_id (N.succ (next_id s)) s)
    ∧ MenuItem._id m = next_id s
    ∧ MenuItem.available m = default true (MenuItemBody.available body).
Proof.
  unfold_handlers. unfold bind, lift, validate_menuItem, fresh_id, ret, await.
  destruct body as [[[|? ?]|] [[|? ?]|] [?|] ? ? ? ?]; outage_cases o; cbn.
  all: intros [= <- <-]; cbn; try discriminate.
  all: intros _; eexists; split_and!; reflexivity.
Qed.

Lemma findOne_key_snoc_new {A} (oid : A → ObjectId) (n : ObjectId) (c : list A) (d : A) :
  Forall (λ x, (oid x < n)%N) c → oid d = n →
  findOne (λ x, bool_decide (oid x = n)) (c ++ [d]) = Some d.
Proof.
  intros Hlt Hd. apply findOne_app_new; [|by apply bool_decide_eq_true_2].
  apply findOne_key_absent. intros x Hx Heq.
  pose proof (proj1 (Forall_forall _ _) Hlt x Hx) as Hlt'. cbn in Hlt'. lia.
Qed.

(** X5. When [POST /api/menu] has answered 201 in a store whose menu
    identifiers were all issued before, [GET /api/menu/:id] with the new
    identifier answers the created item, and [GET /api/menu] lists it exactly
    when the body did not set [available] to [false]. *)
Theorem post_menu_then_get castObjectId (now : Date) (body : MenuItemBody.t)
    (id : string) (s : Store) (r : ApiResponse) (s' : Store) :
  Forall (λ m, (MenuItem._id m < next_id s)%N) (MenuItems s) →
  castObjectId id = Some (next_id s) →
  serve_api (post_menu now body) [] s = (r, s') →
  apiStatus r = 201 →
  ∃ m items,
    apiJson r = JMenuItem m
    ∧ serve_api (get_menu_by_id castObjectId id) [] s'
      = (mkApiResponse 200 (JMenuItem m), s')
    ∧ serve get_menu [] s' = (res_json (JMenuItems items), s')
    ∧ (m ∈ items ↔ MenuItemBody.available body ≠ Some false).
Proof.
  intros Hissued Hcast Hrun H201.
  destruct (post_menu_201 now body [] s r s' Hrun H201)
    as (m & Hjson & -> & Hid & Hav).
  exists m, (List.filter MenuItem.available (MenuItems s ++ [m])).
  split_and!; [done| |done|].
  - unfold_handlers. unfold bind. rewrite Hcast. cbn.
    unfold menu_has_id.
    by rewrite (findOne_key_snoc_new MenuItem._id (next_id s) _ m Hissued Hid).
  - rewrite list_elem_of_In, filter_In, <- list_elem_of_In, Hav.
    split.
    + intros [_ Htrue] Hfalse. rewrite Hfalse in Htrue. discriminate.
    + intros Hne. split; [apply elem_of_app; right; apply list_elem_of_here|].
      destruct (MenuItemBody.available body) as [[]|]; done.
Qed.

Lemma post_menu_then_get_witness :
  Forall (λ m, (MenuItem._id m < next_id sample_store)%N) (MenuItems sample_store)
  ∧ castHex24 id_of_next = Some (next_id sample_store)
  ∧ apiStatus (serve_api (post_menu 2000 fries_body) [] sample_store).1 = 201
  ∧ ∃ m items,
      serve_api (get_menu_by_id castHex24 id_of_next) []
        (serve_api (post_menu 2000 fries_body) [] sample_store).2
      = (mkApiResponse 200 (JMenuItem m),
         (serve_api (post_menu 2000 fries_body) [] sample_store).2)
      ∧ serve get_menu [] (serve_api (post_menu 2000 fries_body) [] sample_store).2
        = (res_json (JMenuItems items),
           (serve_api (post_menu 2000 fries_body) [] sample_store).2)
      ∧ m ∈ items.
Proof.
  assert (Forall (λ m, (MenuItem._id m < next_id sample_store)%N)
            (MenuItems sample_store)) as Hissued.
  { repeat constructor. }
  split; [exact Hissued|]. split; [reflexivity|]. split; [reflexivity|].
  destruct (post_menu_then_get castHex24 2000 fries_body id_of_next sample_store
              (serve_api (post_menu 2000 fries_body) [] sample_store).1
              (serve_api (post_menu 2000 fries_body) [] sample_store).2
              Hissued eq_refl eq_refl eq_refl)
    as (m & items & _ & Hget & Hlist & Hin).
  exists m, items. split; [exact Hget|]. split; [exact Hlist|].
  apply Hin. intros [=].
Defined.

(** ** Updating a menu item *)

Lemma menu_has_id_apply_update i b m :
  menu_has_id i (apply_update b m) = menu_has_id i m.
Proof. done. Qed.



(** X7. In a store whose menu identifiers are unique, once [PUT
    /api/menu/:id] has set [available] to [false] on a stored item, [GET
    /api/menu] no longer lists an item of that identifier, while [GET
    /api/menu/:id] still answers the item. *)
Theorem put_menu_unavailable_hides_item castObjectId updateValidators
    (id : string) (body : MenuItemBody.t) (m : MenuItem.t) (s : Store) :
  NoDup (MenuItem._id <$> MenuItems s) →
  m ∈ MenuItems s →
  castObjectId id = Some (MenuItem._id m) →
  updateValidators body = Return tt →
  MenuItemBody.available body = Some false →
  ∃ s' items,
    (serve_api (put_menu castObjectId updateValidators id body) [] s).2 = s'
    ∧ serve get_menu [] s' = (res_json (JMenuItems items), s')
    ∧ (∀ d, d ∈ items → MenuItem._id d ≠ MenuItem._id m)
    ∧ serve_api (get_menu_by_id castObjectId id) [] s'
      = (mkApiResponse 200 (JMenuItem (apply_update body m)), s')
    ∧ MenuItem.available (apply_update body m) = false.
Proof.
  intros Hunique Hm Hcast Hvalid Hav.
  unfold_handlers. unfold bind, lift. rewrite Hcast, Hvalid. cbn.
  unfold menu_has_id at 1.
  rewrite (findOne_key_elem MenuItem._id _ _ Hunique Hm). cbn.
  eexists _, _. split; [reflexivity|]. cbn. split; [reflexivity|].
  split_and!.
  - intros d Hd Hid.
    apply list_elem_of_In, filter_In in Hd as [Hd Htrue].
    apply list_elem_of_In in Hd. unfold menu_has_id in Hd.
    rewrite (updateOne_unique_key MenuItem._id _ _ _ Hunique) in Hd.
    apply list_elem_of_fmap in Hd as (x & -> & Hx).
    case_bool_decide as Hx'.
    + unfold apply_update in Htrue. cbn in Htrue. rewrite Hav in Htrue.
      discriminate.
    + done.
  - rewrite findOne_updateOne by (intros d Hd; by rewrite menu_has_id_apply_update).
    unfold menu_has_id.
    by rewrite (findOne_key_elem MenuItem._id _ _ Hunique Hm).
  - unfold apply_update. cbn. by rewrite Hav.
Qed.

Lemma put_menu_unavailable_hides_item_witness :
  NoDup (MenuItem._id <$> MenuItems sample_store)
  ∧ menu_fries ∈ MenuItems sample_store
  ∧ castHex24 id_of_menu_fries = Some (MenuItem._id menu_fries)
  ∧ required_on_update retire_body = Return tt
  ∧ MenuItemBody.available retire_body = Some false
  ∧ ∃ s' items,
      serve get_menu [] s' = (res_json (JMenuItems items), s')
      ∧ (∀ d, d ∈ items → MenuItem._id d ≠ MenuItem._id menu_fries)
      ∧ serve_api (get_menu_by_id castHex24 id_of_menu_fries) [] s'
        = (mkApiResponse 200 (JMenuItem (apply_update retire_body menu_fries)), s').
Proof.
  assert (NoDup (MenuItem._id <$> MenuItems sample_store)) as Hunique.
  { apply (bool_decide_unpack _). vm_compute. exact I. }
  assert (menu_fries ∈ MenuItems sample_store) as Hin by apply list_elem_of_here.
  split; [exact Hunique|]. split; [exact Hin|]. do 3 (split; [reflexivity|]).
  destruct (put_menu_unavailable_hides_item castHex24 required_on_update
              id_of_menu_fries retire_body menu_fries sample_store
              Hunique Hin eq_refl eq_refl eq_refl)
    as (s' & items & _ & Hlist & Hnot & Hget & _).
  exists s', items. split; [exact Hlist|]. split; [exact Hnot|exact Hget].
Defined.

(** ** Deleting a stored document *)

(** X8. In a store whose menu identifiers are unique, [DELETE
    /api/menu/:id] for a stored item, served by the store, answers 200 "Menu
    item deleted successfully"; the menu afterwards is the previous one
    without that item, orders and carts are unchanged; then [GET
    /api/menu/:id] and a second [DELETE /api/menu/:id] with the same
    identifier answer 404, and the second delete changes nothing. *)
Theorem delete_menu_removes_the_item castObjectId (id : string)
    (m : MenuItem.t) (s : Store) :
  NoDup (MenuItem._id <$> MenuItems s) →
  m ∈ MenuItems s →
  castObjectId id = Some (MenuItem._id m) →
  ∃ s',
    serve (delete_menu castObjectId id) [] s
    = (res_json (JMessage "Menu item deleted successfully"), s')
    ∧ MenuItems s' = filter (λ d, MenuItem._id d ≠ MenuItem._id m) (MenuItems s)
    ∧ Orders s' = Orders s ∧ Carts s' = Carts s
    ∧ serve_api (get_menu_by_id castObjectId id) [] s'
      = (mkApiResponse 404 (JOf (JError "Menu item not found" None)), s')
    ∧ serve (delete_menu castObjectId id) [] s'
      = (res_status_json 404 (JError "Menu item not found" None), s').
Proof.
  intros Hunique Hm Hcast.
  unfold_handlers. unfold bind. rewrite Hcast. cbn.
  unfold menu_has_id.
  rewrite (findOne_key_elem MenuItem._id _ _ Hunique Hm). cbn.
  rewrite (deleteOne_unique_key MenuItem._id _ _ Hunique).
  eexists. split; [reflexivity|]. cbn.
  rewrite (findOne_filter_key_ne MenuItem._id). cbn.
  split_and!; try done.
  rewrite deleteOne_no_match by apply (findOne_filter_key_ne MenuItem._id).
  done.
Qed.

Lemma delete_menu_removes_the_item_witness :
  NoDup (MenuItem._id <$> MenuItems sample_store)
  ∧ menu_fries ∈ MenuItems sample_store
  ∧ castHex24 id_of_menu_fries = Some (MenuItem._id menu_fries)
  ∧ ∃ s',
      serve (delete_menu castHex24 id_of_menu_fries) [] sample_store
      = (res_json (JMessage "Menu item deleted successfully"), s')
      ∧ MenuItems s' = [menu_retired]
      ∧ serve (delete_menu castHex24 id_of_menu_fries) [] s'
        = (res_status_json 404 (JError "Menu item not found" None), s').
Proof.
  assert (NoDup (MenuItem._id <$> MenuItems sample_store)) as Hunique.
  { apply (bool_decide_unpack _). vm_compute. exact I. }
  assert (menu_fries ∈ MenuItems sample_store) as Hin by apply list_elem_of_here.
  split; [exact Hunique|]. split; [exact Hin|]. split; [reflexivity|].
  destruct (delete_menu_removes_the_item castHex24 id_of_menu_fries menu_fries
              sample_store Hunique Hin eq_refl)
    as (s' & Hrun & Hmenu & _ & _ & _ & Hagain).
  exists s'. split; [exact Hrun|]. split; [|exact Hagain].
  rewrite Hmenu. reflexivity.
Defined.

(** X9. In a store whose order identifiers are unique, [DELETE
    /api/orders/:id] for a stored order, served by the store, answers 200
    "Order deleted successfully"; the orders afterwards are the previous
    ones without that order, menu and carts are unchanged; then [GET
    /api/orders] does not list the order and [GET /api/orders/:id] answers
    404. *)
Theorem delete_order_removes_the_order castObjectId (id : string)
    (order : Order.t) (s : Store) :
  NoDup (Order._id <$> Orders s) →
  order ∈ Orders s →
  castObjectId id = Some (Order._id order) →
  ∃ s' orders,
    serve (delete_order castObjectId id) [] s
    = (res_json (JMessage "Order deleted successfully"), s')
    ∧ Orders s' = filter (λ d, Order._id d ≠ Order._id order) (Orders s)
    ∧ MenuItems s' = MenuItems s ∧ Carts s' = Carts s
    ∧ serve get_orders [] s' = (res_json (JOrders orders), s')
    ∧ (order ∉ orders)
    ∧ serve (get_order_by_id castObjectId id) [] s'
      = (res_status_json 404 (JError "Order not found" None), s').
Proof.
  intros Hunique Hin Hcast.
  unfold_handlers. unfold bind. rewrite Hcast. cbn.
  unfold order_has_id.
  rewrite (findOne_key_elem Order._id _ _ Hunique Hin). cbn.
  rewrite (deleteOne_unique_key Order._id _ _ Hunique).
  eexists _, _. split; [reflexivity|]. cbn.
  rewrite (findOne_filter_key_ne Order._id). cbn.
  split_and!; try done.
  rewrite sort_orderDate_desc_Permutation.
  intros Hd. apply list_elem_of_filter in Hd as [Hd _]. done.
Qed.

Lemma delete_order_removes_the_order_witness :
  NoDup (Order._id <$> Orders sample_store)
  ∧ order_old ∈ Orders sample_store
  ∧ castHex24 id_of_order_old = Some (Order._id order_old)
  ∧ ∃ s',
      serve (delete_order castHex24 id_of_order_old) [] sample_store
      = (res_json (JMessage "Order deleted successfully"), s')
      ∧ Orders s' = [order_recent].
Proof.
  assert (NoDup (Order._id <$> Orders sample_store)) as Hunique.
  { apply (bool_decide_unpack _). vm_compute. exact I. }
  assert (order_old ∈ Orders sample_store) as Hin by apply list_elem_of_here.
  split; [exact Hunique|]. split; [exact Hin|]. split; [reflexivity|].
  destruct (delete_order_removes_the_order castHex24 id_of_order_old order_old
              sample_store Hunique Hin eq_refl)
    as (s' & orders & Hrun & Horders & _).
  exists s'. split; [exact Hrun|]. rewrite Horders. reflexivity.
Defined.

(** ** Changing the status of one order *)

Lemma patch_order_status_store castObjectId id i st s :
  castObjectId id = Some i →
  st ∈ validStatuses →
  (serve (patch_order_status castObjectId id (StatusBody.mk (Some st))) [] s).2
  = with_Orders (updateOne (order_has_id i) (Order.set_status st) (Orders s)) s.
Proof.
  intros Hcast Hvalid. unfold_handlers. unfold bind. cbn.
  rewrite (bool_decide_eq_true_2 _ Hvalid). cbn. rewrite Hcast. cbn.
  by destruct (findOne (order_has_id i) (Orders s)).
Qed.

(** X10. In a store whose order identifiers are unique, [PATCH
    /api/orders/:id/status] with a valid status, served by the store,
    changes the status of the order that has the identifier and nothing
    else: every other order, and every other path of that order, is as
    before; repeating the same request leaves the store as the first one
    left it. *)
Theorem patch_order_status_changes_that_order_only castObjectId (id : string)
    (i : ObjectId) (st : string) (s : Store) :
  NoDup (Order._id <$> Orders s) →
  castObjectId id = Some i →
  st ∈ validStatuses →
  ∃ s',
    (serve (patch_order_status castObjectId id (StatusBody.mk (Some st))) [] s).2
    = s'
    ∧ Orders s'
      = (λ d, if bool_decide (Order._id d = i) then Order.set_status st d else d)
        <$> Orders s
    ∧ MenuItems s' = MenuItems s ∧ Carts s' = Carts s ∧ next_id s' = next_id s
    ∧ (serve (patch_order_status castObjectId id (StatusBody.mk (Some st))) [] s').2
      = s'.
Proof.
  intros Hunique Hcast Hvalid.
  rewrite (patch_order_status_store _ _ _ _ _ Hcast Hvalid).
  eexists. split; [reflexivity|]. cbn.
  unfold order_has_id.
  rewrite (updateOne_unique_key Order._id _ _ _ Hunique).
  split_and!; try done.
  rewrite (patch_order_status_store _ _ _ _ _ Hcast Hvalid). cbn.
  unfold order_has_id.
  rewrite (updateOne_unique_key Order._id).
  - unfold with_Orders. cbn. f_equal.
    rewrite <- list_fmap_compose. apply list_fmap_ext.
    intros j d _. cbn.
    destruct (bool_decide (Order._id d = i)) eqn:Hd; cbn.
    + by rewrite Hd.
    + by rewrite Hd.
  - rewrite <- list_fmap_compose.
    erewrite list_fmap_ext; [exact Hunique|].
    intros j d _. cbn. by case_bool_decide.
Qed.

Lemma patch_order_status_changes_that_order_only_witness :
  NoDup (Order._id <$> Orders sample_store)
  ∧ castHex24 id_of_order_old = Some 5%N
  ∧ "cancelled" ∈ validStatuses
  ∧ Orders (serve (patch_order_status castHex24 id_of_order_old
                     (StatusBody.mk (Some "cancelled"))) [] sample_store).2
    = [Order.set_status "cancelled" order_old; order_recent].
Proof.
  assert (NoDup (Order._id <$> Orders sample_store)) as Hunique.
  { apply (bool_decide_unpack _). vm_compute. exact I. }
  assert ("cancelled" ∈ validStatuses) as Hvalid.
  { apply (bool_decide_unpack _). vm_compute. exact I. }
  split; [exact Hunique|]. split; [reflexivity|]. split; [exact Hvalid|].
  destruct (patch_order_status_changes_that_order_only castHex24
              id_of_order_old 5%N "cancelled" sample_store Hunique eq_refl Hvalid)
    as (s' & Hrun & Horders & _).
  rewrite Hrun, Horders. reflexivity.
Defined.

(** ** Seeding *)

(** X11. [GET /api/seed], served by the store, answers 200 "Database seeded
    successfully" with the four seed entries; whatever the menu was, it is
    afterwards four new documents - the four seed names in order, all
    available, created at the time of the request, with distinct identifiers
    issued by this request -, all of which [GET /api/menu] lists; orders and
    carts are unchanged. *)
Theorem get_seed_replaces_the_menu (now : Date) (s : Store) :
  ∃ s',
    serve_api (get_seed now) [] s
    = (mkApiResponse 200 (JSeeded "Database seeded successfully" seed_menuItems), s')
    ∧ MenuItem.name <$> MenuItems s'
      = ["Double-Double Burger"; "Cheeseburger"; "French Fries"; "Shakes"]
    ∧ Forall (λ m, MenuItem.available m = true ∧ MenuItem.createdAt m = now
                   ∧ (next_id s ≤ MenuItem._id m < next_id s')%N) (MenuItems s')
    ∧ NoDup (MenuItem._id <$> MenuItems s')
    ∧ Orders s' = Orders s ∧ Carts s' = Carts s
    ∧ serve get_menu [] s' = (res_json (JMenuItems (MenuItems s')), s').
Proof.
  eexists. split; [reflexivity|]. cbn. split_and!; try done.
  - repeat constructor; cbn; lia.
  - repeat (apply NoDup_cons; split); [..|apply NoDup_nil_2].
    all: rewrite ?elem_of_cons, ?elem_of_nil; lia.
Qed.

(** X12. [GET /api/seed] is not atomic: when the store serves the wipe and
    rejects the insert, the answer is 500 "Failed to seed database" and the
    menu is left empty, so that [GET /api/menu] lists nothing; when the
    store rejects the wipe, the answer is 500 and the store is unchanged. *)
Theorem get_seed_interrupted_leaves_empty_menu (now : Date) (s : Store) :
  (∃ s',
     serve_api (get_seed now) [false; true] s
     = (mkApiResponse 500
          (JOf (JError "Failed to seed database" (Some StoreUnavailable))), s')
     ∧ MenuItems s' = []
     ∧ Orders s' = Orders s ∧ Carts s' = Carts s
     ∧ serve get_menu [] s' = (res_json (JMenuItems []), s'))
  ∧ serve_api (get_seed now) [true] s
    = (mkApiResponse 500
         (JOf (JError "Failed to seed database" (Some StoreUnavailable))), s).
Proof.
  split; [|reflexivity].
  eexists. split; [reflexivity|]. cbn. by split_and!.
Qed.

(** ** The frame of each route *)

Lemma frame_MenuItems castObjectId updateValidators route o s :
  writes_MenuItems route = false →
  MenuItems (serve_api (dispatch castObjectId updateValidators route) o s).2
  = MenuItems s.
Proof.
  destruct route as [[]| | | | | | |]; try discriminate; intros _.
  all: run_handler; done.
Qed.

Lemma frame_Orders castObjectId updateValidators route o s :
  writes_Orders route = false →
  Orders (serve_api (dispatch castObjectId updateValidators route) o s).2
  = Orders s.
Proof.
  destruct route as [[]| | | | | | |]; try discriminate; intros _.
  all: run_handler; done.
Qed.

Lemma frame_Carts castObjectId updateValidators route o s :
  writes_Carts route = false →
  Carts (serve_api (dispatch castObjectId updateValidators route) o s).2
  = Carts s.
Proof.
  destruct route as [[]| | | | | | |]; try discriminate; intros _.
  all: run_handler; done.
Qed.

(** X13. A route changes only the collections of its resource, whatever the
    outages: the menu is changed by the menu's delete, create and update
    and by the seed only; the orders by the order's create, status update
    and delete only; the carts by the cart's get, post and delete and by the
    order's create only. *)
Theorem routes_write_their_collections_only castObjectId updateValidators
    (route : Route) (o : list bool) (s : Store) :
  (writes_MenuItems route = false →
   MenuItems (serve_api (dispatch castObjectId updateValidators route) o s).2
   = MenuItems s)
  ∧ (writes_Orders route = false →
     Orders (serve_api (dispatch castObjectId updateValidators route) o s).2
     = Orders s)
  ∧ (writes_Carts route = false →
     Carts (serve_api (dispatch castObjectId updateValidators route) o s).2
     = Carts s).
Proof.
  split_and!.
  - apply frame_MenuItems.
  - apply frame_Orders.
  - apply frame_Carts.
Qed.

Lemma routes_write_their_collections_only_witness :
  writes_Orders (Seed 2000) = false
  ∧ writes_Carts (Seed 2000) = false
  ∧ Orders (serve_api (dispatch castHex24 required_on_update (Seed 2000))
              [false; true] sample_store).2 = Orders sample_store
  ∧ Carts (serve_api (dispatch castHex24 required_on_update (Seed 2000))
             [false; true] sample_store).2 = Carts sample_store.
Proof.
  do 2 (split; [reflexivity|]).
  destruct (routes_write_their_collections_only castHex24 required_on_update
              (Seed 2000) [false; true] sample_store) as (_ & Horders & Hcarts).
  split; [exact (Horders eq_refl)|exact (Hcarts eq_refl)].
Defined.

(** ** The invariant of the store *)

Section ids_facts.
Context {A : Type} (oid : A → ObjectId).
Implicit Types (c : list A) (n : ObjectId).

Lemma ids_wf_mono n n' c : (n ≤ n')%N → ids_wf oid n c → ids_wf oid n' c.
Proof.
  intros Hle [Hnd Hlt]. split; [done|].
  eapply Forall_impl; [exact Hlt|]. intros d Hd. cbn in *. lia.
Qed.

Lemma ids_wf_sublist n c c' : c' `sublist_of` c → ids_wf oid n c → ids_wf oid n c'.
Proof.
  intros Hsub [Hnd Hlt]. split.
  - eapply sublist_NoDup; [exact Hnd|]. by apply fmap_sublist.
  - apply Forall_forall. intros d Hd.
    apply (proj1 (Forall_forall _ _) Hlt). by eapply elem_of_sublist.
Qed.

Lemma ids_wf_updateOne n c p (f : A → A) :
  (∀ d, oid (f d) = oid d) → ids_wf oid n c → ids_wf oid n (updateOne p f c).
Proof.
  intros Hf [Hnd Hlt]. split.
  - rewrite fmap_updateOne_same; [done|]. intros d _ _. apply Hf.
  - apply Forall_forall. intros x Hx.
    apply elem_of_updateOne in Hx as [Hx|(d & Hd & _ & ->)].
    + by apply (proj1 (Forall_forall _ _) Hlt).
    + rewrite Hf. by apply (proj1 (Forall_forall _ _) Hlt).
Qed.

Lemma ids_wf_snoc n c d :
  oid d = n → ids_wf oid n c → ids_wf oid (N.succ n) (c ++ [d]).
Proof.
  intros Hd [Hnd Hlt]. split.
  - rewrite fmap_app. apply NoDup_app. split_and!; [done| |apply NoDup_singleton].
    intros i Hi Hn. cbn in Hn. apply list_elem_of_singleton in Hn as ->.
    apply list_elem_of_fmap in Hi as (x & Heq & Hx).
    pose proof (proj1 (Forall_forall _ _) Hlt x Hx) as Hlt'. cbn in Hlt'. lia.
  - apply Forall_app. split.
    + eapply Forall_impl; [exact Hlt|]. intros x Hx. cbn in *. lia.
    + repeat constructor. lia.
Qed.
End ids_facts.

Lemma carts_wf_mono n n' c : (n ≤ n')%N → carts_wf n c → carts_wf n' c.
Proof.
  intros Hle (Hid & Hlt & Hsid & Hne). split_and!; [done| |done|done].
  eapply Forall_impl; [exact Hlt|]. intros d Hd. cbn in *. lia.
Qed.

Lemma get_seed_store now o s :
  (serve_api (get_seed now) o s).2
  = match o with
    | true :: _ => s
    | false :: true :: _ =>
        with_MenuItems []
          (with_next_id (N.succ (N.succ (N.succ (N.succ (next_id s))))) s)
    | _ =>
        with_MenuItems (seeded_menu now (next_id s))
          (with_next_id (N.succ (N.succ (N.succ (N.succ (next_id s))))) s)
    end.
Proof. destruct o as [|[] [|[] ?]]; reflexivity. Qed.

Lemma next_id_monotone castObjectId updateValidators route o s :
  (next_id s
   ≤ next_id (serve_api (dispatch castObjectId updateValidators route) o s).2)%N.
Proof.
  destruct route as [[]| | | | | |now|].
  all: try (cbn [dispatch]; rewrite get_seed_store;
            destruct o as [|[] [|[] ?]]; cbn; lia).
  all: run_handler; lia.
Qed.

Lemma serve_api_widened h o s : (serve_api (widened h) o s).2 = (serve h o s).2.
Proof.
  unfold serve_api, serve, widened. by destruct (h (mkWorld s o)) as [r w].
Qed.

Lemma dispatch_keeps_carts_ok castObjectId updateValidators route o s :
  carts_ok s →
  carts_ok (serve_api (dispatch castObjectId updateValidators route) o s).2.
Proof.
  intros Hok. destruct (writes_Carts route) eqn:Hw.
  - destruct route as [req| | | | | | |]; try discriminate.
    cbn [dispatch]. rewrite serve_api_widened.
    by apply handle_keeps_carts_ok.
  - unfold carts_ok.
    rewrite (frame_Carts castObjectId updateValidators route o s Hw).
    eapply carts_wf_mono; [apply next_id_monotone|exact Hok].
Qed.

Lemma seeded_menu_ids_wf now n :
  ids_wf MenuItem._id (N.succ (N.succ (N.succ (N.succ n)))) (seeded_menu now n).
Proof.
  unfold seeded_menu. split; cbn.
  - repeat (apply NoDup_cons; split); [..|apply NoDup_nil_2].
    all: rewrite ?elem_of_cons, ?elem_of_nil; lia.
  - repeat constructor; cbn; lia.
Qed.

Lemma validate_menuItem_Return d m :
  validate_menuItem d = Return m → MenuItem._id m = NewMenuItem._id d.
Proof.
  unfold validate_menuItem.
  destruct (NewMenuItem.name d); [|done]. case_bool_decide; [done|].
  destruct (NewMenuItem.description d); [|done]. case_bool_decide; [done|].
  destruct (NewMenuItem.price d); [|done]. by intros [= <-].
Qed.

Lemma validate_order_Return o u :
  validate_order o = Return u →
  is_Some (Order.totalPrice o) ∧ Order.status o ∈ validStatuses.
Proof.
  unfold validate_order. destruct (Order.totalPrice o); [|done].
  case_bool_decide; [|done]. by intros _.
Qed.

Lemma dispatch_keeps_menu_ids castObjectId updateValidators route o s :
  ids_wf MenuItem._id (next_id s) (MenuItems s) →
  ids_wf MenuItem._id
    (next_id (serve_api (dispatch castObjectId updateValidators route) o s).2)
    (MenuItems (serve_api (dispatch castObjectId updateValidators route) o s).2).
Proof.
  intros Hok. destruct (writes_MenuItems route) eqn:Hw.
  2: { rewrite (frame_MenuItems castObjectId updateValidators route o s Hw).
       eapply ids_wf_mono; [apply next_id_monotone|exact Hok]. }
  destruct route as [[]| | | | | | |]; try discriminate.
  - run_handler; try done.
    all: eapply ids_wf_sublist; [apply deleteOne_sublist|done].
  - run_handler.
    all: try (eapply ids_wf_mono; [|exact Hok]; lia).
    all: apply ids_wf_snoc; [|done].
    all: match goal with
         | H : validate_menuItem _ = Return _ |- _ =>
             by apply validate_menuItem_Return in H
         end.
  - run_handler; try done.
    all: by apply ids_wf_updateOne.
  - cbn [dispatch]. rewrite get_seed_store.
    destruct o as [|[] [|[] ?]]; cbn; try done.
    all: try apply seeded_menu_ids_wf.
    split; constructor.
Qed.

Lemma no_items_false items : no_items items = false → default [] items ≠ [].
Proof.
  destruct items as [[|i l]|]; cbn; try done.
Qed.

Lemma includes_default l v : includes l v = true → default "" v ∈ l.
Proof.
  destruct v as [st|]; cbn; [|done]. apply bool_decide_eq_true_1.
Qed.

Lemma Forall_updateOne {A} (P : A → Prop) p (f : A → A) (c : list A) :
  (∀ d, P d → P (f d)) → Forall P c → Forall P (updateOne p f c).
Proof.
  intros Hf Hc. apply Forall_forall. intros x Hx.
  apply elem_of_updateOne in Hx as [Hx|(d & Hd & _ & ->)].
  - by apply (proj1 (Forall_forall _ _) Hc).
  - by apply Hf, (proj1 (Forall_forall _ _) Hc).
Qed.

Lemma Forall_sublist_of {A} (P : A → Prop) (c c' : list A) :
  c' `sublist_of` c → Forall P c → Forall P c'.
Proof.
  intros Hsub Hc. apply Forall_forall. intros x Hx.
  apply (proj1 (Forall_forall _ _) Hc). by eapply elem_of_sublist.
Qed.

Lemma dispatch_keeps_orders castObjectId updateValidators route o s :
  ids_wf Order._id (next_id s) (Orders s) ∧ Forall order_valid (Orders s) →
  ids_wf Order._id
    (next_id (serve_api (dispatch castObjectId updateValidators route) o s).2)
    (Orders (serve_api (dispatch castObjectId updateValidators route) o s).2)
  ∧ Forall order_valid
      (Orders (serve_api (dispatch castObjectId updateValidators route) o s).2).
Proof.
  intros [Hids Hvalid]. destruct (writes_Orders route) eqn:Hw.
  2: { rewrite (frame_Orders castObjectId updateValidators route o s Hw).
       split; [|done]. eapply ids_wf_mono; [apply next_id_monotone|exact Hids]. }
  destruct route as [[]| | | | | | |]; try discriminate.
  - (* POST /api/orders *)
    run_handler; try done.
    all: try (split; [eapply ids_wf_mono; [|exact Hids]; lia|done]).
    all: split; [by apply ids_wf_snoc|].
    all: apply Forall_app; split; [done|]; repeat constructor; cbn.
    all: try by apply no_items_false.
    all: match goal with
         | H : validate_order _ = Return _ |- _ =>
             apply validate_order_Return in H as [Htotal Hstatus]
         end; done.
  - (* PATCH /api/orders/:id/status *)
    run_handler; try done.
    all: match goal with
         | H : negb (includes _ _) = false |- _ =>
             apply negb_false_iff, includes_default in H
         end.
    all: split; [by apply ids_wf_updateOne|].
    all: apply Forall_updateOne; [|done].
    all: intros d (Hitems & Htotal & _); by split_and!.
  - (* DELETE /api/orders/:id *)
    run_handler; try done.
    all: split; [eapply ids_wf_sublist; [apply deleteOne_sublist|done]|].
    all: eapply Forall_sublist_of; [apply deleteOne_sublist|done].
Qed.

Lemma dispatch_keeps_store_ok castObjectId updateValidators route o s :
  store_ok s →
  store_ok (serve_api (dispatch castObjectId updateValidators route) o s).2.
Proof.
  intros (Hmenu & Horders & Hvalid & Hcarts).
  destruct (dispatch_keeps_orders castObjectId updateValidators route o s
              (conj Horders Hvalid)) as [Horders' Hvalid'].
  split_and!; [|done|done|].
  - by apply dispatch_keeps_menu_ids.
  - by apply dispatch_keeps_carts_ok.
Qed.

Lemma app_keeps_store_ok castObjectId updateValidators connect route o ps :
  store_ok ps.2 →
  store_ok (app castObjectId updateValidators connect route o ps).2.2.
Proof.
  intros Hok. unfold app.
  destruct (connectToDatabase connect ps.1) as [[c|e] p]; [|done].
  pose proof (dispatch_keeps_store_ok castObjectId updateValidators route o _ Hok)
    as Hok'.
  by destruct (serve_api _ o ps.2) as [r s'].
Qed.

Lemma app_all_keeps_store_ok castObjectId updateValidators reqs ps :
  store_ok ps.2 →
  store_ok (app_all castObjectId updateValidators reqs ps).2.
Proof.
  revert ps. induction reqs as [|[[connect route] o] reqs IH]; intros ps Hok;
    cbn; [done|].
  apply IH. by apply app_keeps_store_ok.
Qed.

Lemma empty_store_ok : store_ok empty_store.
Proof.
  unfold store_ok, carts_ok, carts_wf, ids_wf. cbn. split_and!; constructor.
Qed.

(** X14. Every order the application has stored, in any session of
    requests from the empty store - whatever the bodies, the connections and
    the outages -, has at least one item, a total price and a status among
    the six valid ones. *)
Theorem stored_orders_are_valid castObjectId updateValidators
    (reqs : list (result Connection * Route * list bool)) (p : Process) :
  Forall (λ order,
            Order.items order ≠ []
            ∧ is_Some (Order.totalPrice order)
            ∧ Order.status order ∈ validStatuses)
    (Orders (app_all castObjectId updateValidators reqs (p, empty_store)).2).
Proof.
  pose proof (app_all_keeps_store_ok castObjectId updateValidators reqs
                (p, empty_store) empty_store_ok) as (_ & _ & Hvalid & _).
  exact Hvalid.
Qed.

(** X15. In every store the application reaches from the empty store, the
    identifiers of each collection are distinct and lower than the next
    identifier to issue, a session has at most one cart and no cart has an
    empty [sessionId]. *)
Theorem stored_identifiers_are_unique castObjectId updateValidators
    (reqs : list (result Connection * Route * list bool)) (p : Process) :
  let s := (app_all castObjectId updateValidators reqs (p, empty_store)).2 in
  NoDup (MenuItem._id <$> MenuItems s)
  ∧ NoDup (Order._id <$> Orders s)
  ∧ NoDup (Cart._id <$> Carts s)
  ∧ NoDup (Cart.sessionId <$> Carts s)
  ∧ Forall (λ c, Cart.sessionId c ≠ "") (Carts s)
  ∧ Forall (λ m, (MenuItem._id m < next_id s)%N) (MenuItems s)
  ∧ Forall (λ order, (Order._id order < next_id s)%N) (Orders s)
  ∧ Forall (λ c, (Cart._id c < next_id s)%N) (Carts s).
Proof.
  intros s.
  pose proof (app_all_keeps_store_ok castObjectId updateValidators reqs
                (p, empty_store) empty_store_ok)
    as ([Hm1 Hm2] & [Ho1 Ho2] & _ & (Hc1 & Hc2 & Hc3 & Hc4)).
  by split_and!.
Qed.

(** ** The connection middleware *)

(** X16. While no connection is cached, a request for which
    [mongoose.connect] fails is answered 500 "Database connection failed" by
    the middleware, on every route - the health check and the 404 handler
    included -; no handler runs: the store is unchanged, and no connection
    is cached. *)
Theorem app_without_connection castObjectId updateValidators
    (error : Error) (route : Route) (o : list bool) (p : Process) (s : Store) :
  cachedConnection p = None →
  app castObjectId updateValidators (Throw error) route o (p, s)
  = (mkApiResponse 500
       (JOf (JError "Database connection failed" (Some error))), (p, s)).
Proof.
  intros Hnone. unfold app, connectToDatabase. cbn. by rewrite Hnone.
Qed.

Lemma app_without_connection_witness :
  cachedConnection (mkProcess None) = None
  ∧ app castHex24 required_on_update (Throw StoreUnavailable) Health []
      (mkProcess None, sample_store)
    = (mkApiResponse 500
         (JOf (JError "Database connection failed" (Some StoreUnavailable))),
       (mkProcess None, sample_store)).
Proof.
  split; [reflexivity|].
  apply (app_without_connection castHex24 required_on_update StoreUnavailable
           Health [] (mkProcess None) sample_store).
  reflexivity.
Defined.

(** X17. Once a request has connected, the connection is cached for good:
    every later request is routed to its handler whatever [mongoose.connect]
    would answer - it is not called again -, and the cache is unchanged. *)
Theorem app_connection_is_cached castObjectId updateValidators
    (connection : Connection) (route route' : Route) (o o' : list bool)
    (connect' : result Connection) (p : Process) (s : Store) :
  let ps := (app castObjectId updateValidators (Return connection) route o (p, s)).2 in
  is_Some (cachedConnection ps.1)
  ∧ app castObjectId updateValidators connect' route' o' ps
    = ((serve_api (dispatch castObjectId updateValidators route') o' ps.2).1,
       (ps.1, (serve_api (dispatch castObjectId updateValidators route') o' ps.2).2)).
Proof.
  intros ps.
  assert (is_Some (cachedConnection ps.1)) as Hcached.
  { unfold ps, app, connectToDatabase. cbn.
    destruct (cachedConnection p) as [c|] eqn:Hp; cbn.
    - destruct (serve_api _ o s). cbn. by rewrite Hp.
    - by destruct (serve_api _ o s). }
  split; [done|]. destruct Hcached as [c Hc].
  unfold app at 1, connectToDatabase. rewrite Hc.
  by destruct (serve_api _ o' ps.2).
Qed.

(** ** Carts and orders together *)

(** X18. In a store with one cart per session, [DELETE
    /api/cart/:sessionId], served by the store, answers 200 "Cart cleared
    successfully" and leaves the carts of the other sessions, the menu and
    the orders as they were; no cart of the session remains; a second delete
    answers the same and changes nothing. *)
Theorem delete_cart_clears_the_session (sessionId : string) (s : Store) :
  NoDup (Cart.sessionId <$> Carts s) →
  ∃ s',
    serve (delete_cart sessionId) [] s
    = (res_json (JMessage "Cart cleared successfully"), s')
    ∧ Carts s' = filter (λ c, Cart.sessionId c ≠ sessionId) (Carts s)
    ∧ MenuItems s' = MenuItems s ∧ Orders s' = Orders s
    ∧ findOne (cart_of_session sessionId) (Carts s') = None
    ∧ serve (delete_cart sessionId) [] s'
      = (res_json (JMessage "Cart cleared successfully"), s').
Proof.
  intros Hunique. eexists. split; [reflexivity|]. cbn.
  unfold cart_of_session.
  rewrite (deleteOne_unique_key Cart.sessionId _ _ Hunique).
  pose proof (findOne_filter_key_ne Cart.sessionId (Carts s) sessionId) as Hnone.
  split_and!; try done.
  unfold serve, delete_cart, try_catch, Cart_findOneAndDelete, bind, await. cbn.
  unfold cart_of_session. rewrite deleteOne_no_match by done. done.
Qed.

Lemma delete_cart_clears_the_session_witness :
  NoDup (Cart.sessionId <$> Carts sample_store)
  ∧ ∃ s',
      serve (delete_cart "s1") [] sample_store
      = (res_json (JMessage "Cart cleared successfully"), s')
      ∧ Carts s' = [cart_s2].
Proof.
  assert (NoDup (Cart.sessionId <$> Carts sample_store)) as Hunique.
  { apply (bool_decide_unpack _). vm_compute. exact I. }
  split; [exact Hunique|].
  destruct (delete_cart_clears_the_session "s1" sample_store Hunique)
    as (s' & Hrun & Hcarts & _).
  exists s'. split; [exact Hrun|]. rewrite Hcarts. reflexivity.
Defined.

Lemma truthy_nonempty sid : sid ≠ "" → truthy (Some sid) = true.
Proof. intros H. cbn. by rewrite bool_decide_eq_false_2. Qed.

(** The store after an order with a session identifier is placed. *)
Lemma post_orders_with_session now body sid s :
  OrderBody.sessionId body = Some sid → sid ≠ "" →
  statusCode (serve (post_orders now body) [] s).1 = 201 →
  ∃ order,
    serve (post_orders now body) [] s
    = (res_status_json 201 (JOrder order),
       mkStore (MenuItems s) (Orders s ++ [order])
         (deleteOne (cart_of_session sid) (Carts s)) (N.succ (next_id s)))
    ∧ Order.items order = default [] (OrderBody.items body)
    ∧ Order.totalPrice order = OrderBody.totalPrice body
    ∧ Order.customerInfo order = OrderBody.customerInfo body
    ∧ Order.status order = "pending"
    ∧ Order.orderDate order = now.
Proof.
  intros Hsid Hne. unfold serve, post_orders, try_catch.
  rewrite Hsid, (truthy_nonempty _ Hne).
  destruct (no_items (OrderBody.items body)); cbn; [discriminate|].
  unfold Order_save, bind, lift. cbn.
  rewrite validate_order_pending by done. cbn.
  destruct (OrderBody.totalPrice body); cbn; [|discriminate].
  intros _. eexists. split; [reflexivity|]. done.
Qed.

(** X19. In a well-formed store, once an order carrying the session
    identifier of a stored cart has been placed (201), [GET
    /api/cart/:sessionId], served by the store, answers a new cart for the
    session: no items, [lastUpdated] at the time of the get, and an
    identifier different from the deleted cart's; that cart is now the
    session's stored cart. *)
Theorem order_placed_then_cart_is_fresh (now now' : Date) (body : OrderBody.t)
    (sid : string) (old : Cart.t) (s : Store) :
  carts_ok s →
  OrderBody.sessionId body = Some sid → sid ≠ "" →
  findOne (cart_of_session sid) (Carts s) = Some old →
  statusCode (serve (post_orders now body) [] s).1 = 201 →
  ∃ cart s'',
    serve (get_cart now' sid) [] (serve (post_orders now body) [] s).2
    = (res_json (JCart cart), s'')
    ∧ Cart.sessionId cart = sid
    ∧ Cart.items cart = []
    ∧ Cart.lastUpdated cart = now'
    ∧ Cart._id cart ≠ Cart._id old
    ∧ findOne (cart_of_session sid) (Carts s'') = Some cart.
Proof.
  intros (_ & Hissued & Hunique & _) Hsid Hne Hfind H201.
  destruct (post_orders_with_session now body sid s Hsid Hne H201)
    as (order & -> & _).
  cbn [snd].
  assert (findOne (cart_of_session sid) (deleteOne (cart_of_session sid) (Carts s))
          = None) as Hgone.
  { unfold cart_of_session.
    rewrite (deleteOne_unique_key Cart.sessionId _ _ Hunique).
    apply (findOne_filter_key_ne Cart.sessionId). }
  unfold serve, get_cart, try_catch, bind, Cart_findOne, await. cbn.
  rewrite Hgone. cbn.
  unfold Cart_save, bind, lift. cbn.
  rewrite validate_cart_ok by done. cbn. rewrite Hgone.
  eexists _, _. split; [reflexivity|]. cbn.
  split_and!; try done.
  - apply findOne_Some in Hfind as [Hold _].
    pose proof (proj1 (Forall_forall _ _) Hissued old Hold) as Hlt. cbn in Hlt.
    lia.
  - apply findOne_app_new; [done|]. by apply bool_decide_eq_true_2.
Qed.

Lemma order_placed_then_cart_is_fresh_witness :
  carts_ok sample_store
  ∧ findOne (cart_of_session "s1") (Carts sample_store) = Some cart_s1
  ∧ statusCode (serve (post_orders 2000 (order_body (Some "s1") None)) []
                  sample_store).1 = 201
  ∧ ∃ cart s'',
      serve (get_cart 3000 "s1") []
        (serve (post_orders 2000 (order_body (Some "s1") None)) [] sample_store).2
      = (res_json (JCart cart), s'')
      ∧ Cart.items cart = []
      ∧ Cart._id cart ≠ Cart._id cart_s1.
Proof.
  assert (carts_ok sample_store) as Hok.
  { unfold carts_ok, carts_wf. split_and!.
    - apply (bool_decide_unpack _). vm_compute. exact I.
    - apply (bool_decide_unpack _). vm_compute. exact I.
    - apply (bool_decide_unpack _). vm_compute. exact I.
    - apply (bool_decide_unpack _). vm_compute. exact I. }
  assert ("s1" ≠ "") as Hne by (intros [=]).
  split; [exact Hok|]. do 2 (split; [reflexivity|]).
  destruct (order_placed_then_cart_is_fresh 2000 3000
              (order_body (Some "s1") None) "s1" cart_s1 sample_store
              Hok eq_refl Hne eq_refl eq_refl)
    as (cart & s'' & Hrun & _ & Hitems & _ & Hid & _).
  exists cart, s''. split; [exact Hrun|]. split; [exact Hitems|exact Hid].
Defined.

(** ** Listing after creation *)

Lemma sort_orderDate_desc_newest l (order : Order.t) :
  Forall (λ o, Order.orderDate o < Order.orderDate order) l →
  sort_orderDate_desc (l ++ [order]) = order :: sort_orderDate_desc l.
Proof.
  induction 1 as [|o l Ho Hl IH]; cbn; [done|].
  unfold sort_orderDate_desc in *. cbn. rewrite IH. cbn.
  destruct (Z.leb_spec (Order.orderDate order) (Order.orderDate o)); [lia|done].
Qed.

(** X20. When every stored order is dated before the time of the request,
    an order placed by [POST /api/orders] (201) is the first of the list
    [GET /api/orders] answers afterwards, followed by the previous list. *)
Theorem new_order_is_listed_first (now : Date) (body : OrderBody.t) (s : Store)
    (r : Response) (s' : Store) :
  Forall (λ o, Order.orderDate o < now) (Orders s) →
  serve (post_orders now body) [] s = (r, s') →
  statusCode r = 201 →
  ∃ order previous,
    json r = JOrder order
    ∧ serve get_orders [] s = (res_json (JOrders previous), s)
    ∧ serve get_orders [] s' = (res_json (JOrders (order :: previous)), s').
Proof.
  intros Hdates. unfold serve at 1. unfold post_orders, try_catch.
  destruct body as [[[|it items]|] [total|] ci notes [[|a sid]|] st]; cbn.
  all: intros [= <- <-]; cbn; try discriminate.
  all: intros _; eexists _, _; split; [reflexivity|]; split; [reflexivity|].
  all: unfold serve, get_orders, try_catch, bind, Order_find_sorted, await; cbn.
  all: by rewrite sort_orderDate_desc_newest.
Qed.

Lemma new_order_is_listed_first_witness :
  Forall (λ o, Order.orderDate o < 2000) (Orders sample_store)
  ∧ statusCode (serve (post_orders 2000 (order_body None None)) []
                  sample_store).1 = 201
  ∧ ∃ order,
      serve get_orders []
        (serve (post_orders 2000 (order_body None None)) [] sample_store).2
      = (res_json (JOrders [order; order_recent; order_old]),
         (serve (post_orders 2000 (order_body None None)) [] sample_store).2)
      ∧ Order.orderDate order = 2000.
Proof.
  assert (Forall (λ o, Order.orderDate o < 2000) (Orders sample_store)) as Hdates.
  { repeat constructor. }
  split; [exact Hdates|]. split; [reflexivity|].
  destruct (new_order_is_listed_first 2000 (order_body None None) sample_store
              (serve (post_orders 2000 (order_body None None)) [] sample_store).1
              (serve (post_orders 2000 (order_body None None)) [] sample_store).2
              Hdates eq_refl eq_refl)
    as (order & previous & Hjson & Hprev & Hlist).
  injection Hjson as <-. injection Hprev as <-.
  eexists. split; [exact Hlist|reflexivity].
Defined.

(** ** The client's cart: names, totals, round trips *)

Lemma named_true name i : named name i = true ↔ Item.name i = name.
Proof. unfold named. apply bool_decide_eq_true. Qed.

Lemma named_false name i : named name i = false ↔ Item.name i ≠ name.
Proof. unfold named. apply bool_decide_eq_false. Qed.

Lemma find_named_None name cart :
  List.find (named name) cart = None ↔ name ∉ cart_names cart.
Proof.
  unfold cart_names. induction cart as [|i cart IH]; cbn.
  - split; [intros _ H; by apply elem_of_nil in H|done].
  - destruct (named name i) eqn:Hi.
    + apply named_true in Hi. split; [done|].
      intros H. destruct H. rewrite Hi. apply list_elem_of_here.
    + apply named_false in Hi. rewrite IH, elem_of_cons.
      split; [intros H [H'|H']; [congruence|done]|intros H H'; apply H; by right].
Qed.

Lemma find_named_Some name cart i :
  List.find (named name) cart = Some i → name ∈ cart_names cart.
Proof.
  intros H. destruct (decide (name ∈ cart_names cart)) as [|Hn]; [done|].
  apply find_named_None in Hn. congruence.
Qed.

(** X21. The three mutations keep the names of the client's cart distinct:
    when no two entries of the cart have the same name, so it is of the cart
    that [addToCart], [updateQuantity] and [removeFromCart] hand to
    [setCart]. *)
Theorem cart_mutations_keep_names_distinct (cart : list Item.t)
    (item : MenuItem.t) (name : string) (change : Z) :
  NoDup (cart_names cart) →
  NoDup (cart_names (setCart (addToCart cart item)))
  ∧ NoDup (cart_names (setCart (updateQuantity cart name change)))
  ∧ NoDup (cart_names (setCart (removeFromCart cart name))).
Proof.
  intros Hnd. split_and!.
  - unfold addToCart. cbn.
    destruct (List.find (named (MenuItem.name item)) cart) eqn:Hfind.
    + unfold cart_names. change (List.map ?f cart) with (f <$> cart).
      rewrite <- list_fmap_compose.
      erewrite list_fmap_ext; [exact Hnd|].
      intros j i _. cbn. by destruct (named _ i).
    + apply find_named_None in Hfind.
      unfold cart_names in *. rewrite fmap_app. cbn.
      apply NoDup_app. split_and!; [done| |apply NoDup_singleton].
      intros x Hx ->%list_elem_of_singleton. done.
  - unfold updateQuantity, cart_names in *. cbn.
    eapply sublist_NoDup; [exact Hnd|].
    induction cart as [|i cart IH]; cbn; [constructor|].
    apply NoDup_cons in Hnd as [_ Hnd].
    destruct (named name i); cbn;
      match goal with |- context [if ?b then _ else _] => destruct b end; cbn.
    all: try (apply sublist_skip; by apply IH).
    all: apply sublist_cons; by apply IH.
  - unfold removeFromCart, cart_names in *. cbn.
    eapply sublist_NoDup; [exact Hnd|]. apply fmap_sublist.
    clear. induction cart as [|i cart IH]; cbn; [constructor|].
    destruct (negb (named name i)); by constructor.
Qed.

Lemma cart_mutations_keep_names_distinct_witness :
  NoDup (cart_names [fries; shake])
  ∧ NoDup (cart_names (setCart (addToCart [fries; shake] menu_fries))).
Proof.
  assert (NoDup (cart_names [fries; shake])) as Hnd.
  { apply (bool_decide_unpack _). vm_compute. exact I. }
  split; [exact Hnd|].
  destruct (cart_mutations_keep_names_distinct [fries; shake] menu_fries
              "Shakes" (-1) Hnd) as (Hadd & _ & _).
  exact Hadd.
Defined.

Lemma fold_left_quantity_shift (cart : list Item.t) (a : Z) :
  fold_left (λ sum item, sum + Item.quantity item) cart a
  = a + fold_left (λ sum item, sum + Item.quantity item) cart 0.
Proof.
  revert a. induction cart as [|i cart IH]; intros a; cbn; [lia|].
  rewrite (IH (a + Item.quantity i)), (IH (0 + Item.quantity i)). lia.
Qed.

Lemma totalItems_cons i cart :
  totalItems (i :: cart) = Item.quantity i + totalItems cart.
Proof. unfold totalItems. cbn. by rewrite fold_left_quantity_shift. Qed.

Lemma totalItems_app cart cart' :
  totalItems (cart ++ cart') = totalItems cart + totalItems cart'.
Proof.
  induction cart as [|i cart IH].
  - change (totalItems []) with 0. rewrite app_nil_l. lia.
  - rewrite <- app_comm_cons, !totalItems_cons, IH. lia.
Qed.





(** X24. A mutation on a name the cart does not have: [removeFromCart]
    leaves the cart as it is, so does [updateQuantity] when the quantities
    of the cart are all at least 1, and [addToCart] appends one entry with
    the item's name and price and quantity 1. *)
Theorem cart_mutations_on_absent_name (cart : list Item.t) (item : MenuItem.t)
    (name : string) (change : Z) :
  name ∉ cart_names cart →
  MenuItem.name item ∉ cart_names cart →
  setCart (removeFromCart cart name) = cart
  ∧ (quantities_positive cart → setCart (updateQuantity cart name change) = cart)
  ∧ setCart (addToCart cart item)
    = cart ++ [Item.mk (MenuItem.name item) (MenuItem.price item) 1].
Proof.
  intros Hname Hitem. split_and!.
  - clear Hitem. unfold removeFromCart, cart_names in *. cbn.
    induction cart as [|i cart IH]; cbn; [done|].
    cbn in Hname. apply not_elem_of_cons in Hname as [Hi Hname].
    assert (named name i = false) as -> by (apply named_false; congruence).
    cbn. by rewrite IH.
  - intros Hcart. clear Hitem.
    unfold updateQuantity, cart_names, quantities_positive in *. cbn.
    induction Hcart as [|i cart Hq Hcart IH]; cbn; [done|].
    cbn in Hname. apply not_elem_of_cons in Hname as [Hi Hname].
    assert (named name i = false) as -> by (apply named_false; congruence).
    destruct (Z.ltb_spec 0 (Item.quantity i)) as [_|Hle]; [|lia].
    by rewrite IH.
  - unfold addToCart. cbn.
    apply find_named_None in Hitem. by rewrite Hitem.
Qed.

Lemma cart_mutations_on_absent_name_witness :
  ("Cheeseburger" ∉ cart_names [fries; shake])
  ∧ (MenuItem.name menu_retired ∉ cart_names [fries; shake])
  ∧ setCart (removeFromCart [fries; shake] "Cheeseburger") = [fries; shake]
  ∧ length (setCart (addToCart [fries; shake] menu_retired)) = 3%nat.
Proof.
  assert ("Cheeseburger" ∉ cart_names [fries; shake]) as Hname.
  { apply (bool_decide_unpack _). vm_compute. exact I. }
  assert (MenuItem.name menu_retired ∉ cart_names [fries; shake]) as Hitem.
  { apply (bool_decide_unpack _). vm_compute. exact I. }
  split; [exact Hname|]. split; [exact Hitem|].
  destruct (cart_mutations_on_absent_name [fries; shake] menu_retired
              "Cheeseburger" 1 Hname Hitem) as (Hremove & _ & Hadd).
  split; [exact Hremove|]. rewrite Hadd. reflexivity.
Defined.

(** X25. [removeFromCart] leaves no entry of the name and keeps every
    other entry, in order; and on a cart whose quantities are all at least
    1, [updateQuantity] with a change that brings every entry of the name
    to 0 or less is [removeFromCart]: decrementing an entry of quantity 1
    removes it. *)
Theorem removeFromCart_removes_the_name (cart : list Item.t) (name : string)
    (change : Z) :
  (name ∉ cart_names (setCart (removeFromCart cart name)))
  ∧ setCart (removeFromCart cart name) = filter (λ i, Item.name i ≠ name) cart
  ∧ (quantities_positive cart →
     (∀ i, i ∈ cart → Item.name i = name → Item.quantity i + change ≤ 0) →
     setCart (updateQuantity cart name change)
     = setCart (removeFromCart cart name)).
Proof.
  assert (setCart (removeFromCart cart name)
          = filter (λ i, Item.name i ≠ name) cart) as Hfilter.
  { unfold removeFromCart. cbn [setCart].
    induction cart as [|i cart IH]; [done|].
    rewrite filter_cons. cbn [List.filter].
    destruct (named name i) eqn:Hn; cbn [negb].
    - apply named_true in Hn. rewrite decide_False by (intros H; by apply H).
      done.
    - apply named_false in Hn. rewrite decide_True by done. by rewrite IH. }
  split_and!; [|done|].
  - rewrite Hfilter. unfold cart_names. intros Hin.
    apply list_elem_of_fmap in Hin as (i & Heq & Hi).
    apply list_elem_of_filter in Hi as [Hi _]. by apply Hi.
  - intros Hcart Hdrop. clear Hfilter.
    unfold updateQuantity, removeFromCart, quantities_positive in *.
    cbn. induction Hcart as [|i cart Hq Hcart IH]; cbn; [done|].
    rewrite IH by (intros j Hj; apply Hdrop; by apply list_elem_of_further).
    destruct (named name i) eqn:Hn; cbn.
    + apply named_true in Hn.
      pose proof (Hdrop i (list_elem_of_here _ _) Hn) as Hle.
      destruct (Z.ltb_spec 0 (Z.max 0 (Item.quantity i + change))); [lia|done].
    + destruct (Z.ltb_spec 0 (Item.quantity i)); [done|lia].
Qed.

Lemma removeFromCart_removes_the_name_witness :
  quantities_positive [fries; shake]
  ∧ (∀ i, i ∈ [fries; shake] → Item.name i = "Shakes" →
          Item.quantity i + (- 1) ≤ 0)
  ∧ setCart (updateQuantity [fries; shake] "Shakes" (- 1))
    = setCart (removeFromCart [fries; shake] "Shakes").
Proof.
  assert (quantities_positive [fries; shake]) as Hcart.
  { repeat constructor; cbn; lia. }
  assert (∀ i, i ∈ [fries; shake] → Item.name i = "Shakes" →
               Item.quantity i + (- 1) ≤ 0) as Hdrop.
  { intros i Hi Hn. apply elem_of_cons in Hi as [->|Hi]; [discriminate Hn|].
    apply list_elem_of_singleton in Hi as ->. cbn. lia. }
  split; [exact Hcart|]. split; [exact Hdrop|].
  destruct (removeFromCart_removes_the_name [fries; shake] "Shakes" (- 1))
    as (_ & _ & Hsame).
  exact (Hsame Hcart Hdrop).
Defined.



(** ** The session identifier *)

(** X27. [getSessionId] answers a session identifier that is never empty
    and leaves it stored under the key "sessionId", the other keys of the
    storage untouched; a stored, non-empty identifier is answered as it is,
    the storage unchanged; and a second call, at any time, answers the same
    identifier and changes nothing. *)
Theorem getSessionId_is_stable (now now' : Date) (random random' : string)
    (localStorage : gmap string string) :
  let sessionId := (getSessionId now random localStorage).1 in
  let stored := (getSessionId now random localStorage).2 in
  sessionId ≠ ""
  ∧ stored !! "sessionId" = Some sessionId
  ∧ (∀ key, key ≠ "sessionId" → stored !! key = localStorage !! key)
  ∧ (∀ previous, localStorage !! "sessionId" = Some previous → previous ≠ "" →
       sessionId = previous ∧ stored = localStorage)
  ∧ getSessionId now' random' stored = (sessionId, stored).
Proof.
  cbn zeta.
  assert (∀ (t : Date) r, "session_" +:+ pretty t +:+ "_" +:+ r ≠ "") as Hgenerated.
  { intros t r. cbn. discriminate. }
  unfold getSessionId.
  destruct (localStorage !! "sessionId") as [previous|] eqn:Hstored.
  - case_bool_decide as Hempty; cbn.
    + rewrite lookup_insert_eq.
      rewrite bool_decide_eq_false_2 by apply Hgenerated.
      split_and!; try done.
      * intros key Hkey. by rewrite lookup_insert_ne.
      * intros p [= <-] Hp. done.
    + rewrite Hstored. rewrite bool_decide_eq_false_2 by done.
      split_and!; try done. by intros p [= <-] _.
  - cbn. rewrite lookup_insert_eq.
    rewrite bool_decide_eq_false_2 by apply Hgenerated.
    split_and!; try done.
    intros key Hkey. by rewrite lookup_insert_ne.
Qed.

Lemma getSessionId_is_stable_witness :
  ({["sessionId" := "session_1_abc"]} : gmap string string) !! "sessionId"
  = Some "session_1_abc"
  ∧ "session_1_abc" ≠ ""
  ∧ getSessionId 5 "xyz" {["sessionId" := "session_1_abc"]}
    = ("session_1_abc", {["sessionId" := "session_1_abc"]}).
Proof.
  assert (({["sessionId" := "session_1_abc"]} : gmap string string) !! "sessionId"
          = Some "session_1_abc") as Hstored by apply lookup_singleton_eq.
  assert ("session_1_abc" ≠ "") as Hid by (intros [=]).
  split; [exact Hstored|]. split; [exact Hid|].
  destruct (getSessionId_is_stable 5 6 "xyz" "uvw"
              {["sessionId" := "session_1_abc"]}) as (_ & _ & _ & Hreuse & _).
  destruct (Hreuse _ Hstored Hid) as [Hsame Hstorage].
  rewrite (surjective_pairing (getSessionId _ _ _)).
  by rewrite Hsame, Hstorage.
Defined.

(** ** The client and the server together *)

Lemma post_cart_then_stored now sid items s :
  sid ≠ "" →
  ∃ cart,
    findOne (cart_of_session sid)
      (Carts (serve (post_cart now sid (CartBody.mk items)) [] s).2) = Some cart
    ∧ Cart.items cart = items.
Proof.
  intros Hsid. unfold serve, post_cart, try_catch, bind, Cart_findOne, await.
  cbn.
  destruct (findOne (cart_of_session sid) (Carts s)) as [old|] eqn:Hfind; cbn.
  - apply findOne_Some in Hfind as Hold. destruct Hold as [_ Hold].
    apply cart_of_session_true in Hold.
    unfold Cart_save, bind, lift. cbn.
    rewrite validate_cart_ok by (cbn; congruence). cbn.
    eexists. split; [by apply findOne_session_after_update|done].
  - unfold Cart_save, bind, lift. cbn.
    rewrite validate_cart_ok by done. cbn. rewrite Hfind. cbn.
    eexists. split.
    { apply findOne_app_new; [done|]. by apply bool_decide_eq_true_2. }
    reflexivity.
Qed.

Lemma get_cart_of_stored now sid cart s :
  findOne (cart_of_session sid) (Carts s) = Some cart →
  serve (get_cart now sid) [] s = (res_json (JCart cart), s).
Proof.
  intros Hfind. unfold serve, get_cart, try_catch, bind, Cart_findOne, await.
  cbn. by rewrite Hfind.
Qed.

(** X28. A cart synchronised after a mutation survives a reload: when the
    store serves the [POST /api/cart/:sessionId] that [syncCartToBackend]
    sends after [addToCart], [updateQuantity] or [removeFromCart], and then
    the [GET /api/cart/:sessionId] of [fetchCart], the cart [fetchCart]
    gives to [setCart] is the cart the mutation gave to [setCart]; the get
    leaves the store as the post left it. *)
Theorem synced_cart_survives_reload (now now' : Date) (sessionId : string)
    (cart stale : list Item.t) (item : MenuItem.t) (name : string) (change : Z)
    (u : CartUpdate) (s : Store) :
  sessionId ≠ "" →
  u = addToCart cart item ∨ u = updateQuantity cart name change
  ∨ u = removeFromCart cart name →
  let s' :=
    (serve (post_cart now sessionId (CartBody.mk (syncCartToBackend u))) [] s).2 in
  fetchCart (Some (serve (get_cart now' sessionId) [] s').1) stale = setCart u
  ∧ (serve (get_cart now' sessionId) [] s').2 = s'.
Proof.
  intros Hsid Hu s'.
  assert (syncCartToBackend u = setCart u) as Hsync.
  { by destruct Hu as [->|[->| ->]]. }
  destruct (post_cart_then_stored now sessionId (syncCartToBackend u) s Hsid)
    as (stored & Hfind & Hitems).
  fold s' in Hfind.
  rewrite (get_cart_of_stored now' sessionId stored s' Hfind). cbn.
  by rewrite Hitems.
Qed.

Lemma synced_cart_survives_reload_witness :
  "s1" ≠ ""
  ∧ fetchCart
      (Some (serve (get_cart 3000 "s1") []
               (serve (post_cart 2000 "s1"
                         (CartBody.mk
                            (syncCartToBackend (addToCart [fries] menu_fries))))
                  [] sample_store).2).1) []
    = [with_quantity 3 fries].
Proof.
  assert ("s1" ≠ "") as Hsid by (intros [=]).
  split; [exact Hsid|].
  destruct (synced_cart_survives_reload 2000 3000 "s1" [fries] [] menu_fries
              "" 0 (addToCart [fries] menu_fries) sample_store Hsid
              (or_introl eq_refl)) as [Hreload _].
  rewrite Hreload. reflexivity.
Defined.

Lemma checkout_request send sessionId cart :
  cart ≠ [] →
  (checkout send sessionId cart).1
  = Some (OrderBody.mk (Some cart) (Some (totalPrice cart)) (Some guest) None
            (Some sessionId) None).
Proof.
  intros Hcart. unfold checkout.
  rewrite bool_decide_eq_false_2 by (by destruct cart).
  by destruct (send _) as [r|]; [destruct (response_ok r)|].
Qed.

(** X29. [checkout] of an empty cart sends nothing and leaves the cart.  Of
    a cart with entries, answered by a server whose store serves the calls
    and has one cart per session: the order placed has the entries of the
    cart as items, the guest as customer and the status "pending", it is
    appended to the orders, the session's cart is deleted on the server and
    the client's cart is emptied. *)
Theorem checkout_places_the_order (now : Date) (sessionId : string)
    (cart : list Item.t) (s : Store) :
  sessionId ≠ "" →
  NoDup (Cart.sessionId <$> Carts s) →
  (∀ send, checkout send sessionId [] = (None, []))
  ∧ (cart ≠ [] →
     ∃ body order s',
       checkout (λ body, Some (serve (post_orders now body) [] s).1) sessionId cart
       = (Some body, [])
       ∧ serve (post_orders now body) [] s
         = (res_status_json 201 (JOrder order), s')
       ∧ Order.items order = cart
       ∧ Order.customerInfo order = Some guest
       ∧ Order.status order = "pending"
       ∧ Orders s' = Orders s ++ [order]
       ∧ Carts s' = filter (λ c, Cart.sessionId c ≠ sessionId) (Carts s)).
Proof.
  intros Hsid Hunique. split; [done|]. intros Hcart.
  set (body := OrderBody.mk (Some cart) (Some (totalPrice cart)) (Some guest) None
                 (Some sessionId) None).
  assert (statusCode (serve (post_orders now body) [] s).1 = 201) as H201.
  { unfold serve, post_orders, try_catch. cbn.
    rewrite bool_decide_eq_false_2 by (by destruct cart). cbn.
    rewrite bool_decide_eq_false_2 by done. done. }
  destruct (post_orders_with_session now body sessionId s eq_refl Hsid H201)
    as (order & Hrun & Hitems & _ & Hcustomer & Hstatus & _).
  exists body, order. eexists. split_and!; [|exact Hrun|done..| |].
  - unfold checkout. rewrite bool_decide_eq_false_2 by (by destruct cart).
    fold body. by rewrite Hrun.
  - done.
  - cbn. apply (deleteOne_unique_key Cart.sessionId _ _ Hunique).
Qed.

Lemma checkout_places_the_order_witness :
  "s1" ≠ ""
  ∧ NoDup (Cart.sessionId <$> Carts sample_store)
  ∧ [fries] ≠ []
  ∧ ∃ body,
      checkout (λ body, Some (serve (post_orders 2000 body) [] sample_store).1)
        "s1" [fries] = (Some body, [])
      ∧ Carts (serve (post_orders 2000 body) [] sample_store).2 = [cart_s2].
Proof.
  assert ("s1" ≠ "") as Hsid by (intros [=]).
  assert (NoDup (Cart.sessionId <$> Carts sample_store)) as Hunique.
  { apply (bool_decide_unpack _). vm_compute. exact I. }
  assert ([fries] ≠ []) as Hcart by (intros [=]).
  split; [exact Hsid|]. split; [exact Hunique|]. split; [exact Hcart|].
  destruct (checkout_places_the_order 2000 "s1" [fries] sample_store Hsid Hunique)
    as [_ Hplaced].
  destruct (Hplaced Hcart) as (body & order & s' & Hcheckout & Hrun & _ & _ & _ & _ & Hcarts).
  exists body. split; [exact Hcheckout|].
  rewrite Hrun. cbn [snd]. rewrite Hcarts. reflexivity.
Defined.

(** X30. When the store saves the order and rejects the deletion of the
    cart, [checkout] keeps the client's cart although the order is stored:
    the server's cart of the session is kept too, and a second [checkout] of
    the same cart, served by the store, stores a second order with the same
    items. *)
Theorem checkout_after_failed_cart_deletion (now now' : Date) (sessionId : string)
    (cart : list Item.t) (s : Store) :
  sessionId ≠ "" →
  cart ≠ [] →
  ∃ body order s' order' s'',
    checkout (λ body, Some (serve (post_orders now body) [false; true] s).1)
      sessionId cart = (Some body, cart)
    ∧ (serve (post_orders now body) [false; true] s).2 = s'
    ∧ Orders s' = Orders s ++ [order]
    ∧ Carts s' = Carts s
    ∧ checkout (λ body, Some (serve (post_orders now' body) [] s').1)
        sessionId cart = (Some body, [])
    ∧ (serve (post_orders now' body) [] s').2 = s''
    ∧ Orders s'' = Orders s ++ [order; order']
    ∧ Order.items order = cart ∧ Order.items order' = cart
    ∧ Order._id order ≠ Order._id order'.
Proof.
  intros Hsid Hcart.
  set (body := OrderBody.mk (Some cart) (Some (totalPrice cart)) (Some guest) None
                 (Some sessionId) None).
  assert (no_items (Some cart) = false) as Hitems.
  { cbn. apply bool_decide_eq_false_2. by destruct cart. }
  assert (∀ t st,
            serve (post_orders t body) [false; true] st
            = (res_status_json 400
                 (JError "Failed to create order" (Some StoreUnavailable)),
               mkStore (MenuItems st)
                 (Orders st ++ [Order.mk (next_id st) cart (Some (totalPrice cart))
                                  (Some guest) "pending" t None])
                 (Carts st) (N.succ (next_id st)))) as Hfail.
  { intros t st. unfold serve, post_orders, try_catch. cbn [OrderBody.items body].
    rewrite Hitems. cbn. by rewrite bool_decide_eq_false_2 by done. }
  assert (∀ t st,
            serve (post_orders t body) [] st
            = (res_status_json 201
                 (JOrder (Order.mk (next_id st) cart (Some (totalPrice cart))
                            (Some guest) "pending" t None)),
               mkStore (MenuItems st)
                 (Orders st ++ [Order.mk (next_id st) cart (Some (totalPrice cart))
                                  (Some guest) "pending" t None])
                 (deleteOne (cart_of_session sessionId) (Carts st))
                 (N.succ (next_id st)))) as Hok.
  { intros t st. unfold serve, post_orders, try_catch. cbn [OrderBody.items body].
    rewrite Hitems. cbn. by rewrite bool_decide_eq_false_2 by done. }
  exists body. eexists _, _, _, _. split_and!.
  - unfold checkout. rewrite bool_decide_eq_false_2 by (by destruct cart).
    fold body. by rewrite Hfail.
  - by rewrite Hfail.
  - done.
  - done.
  - unfold checkout. rewrite bool_decide_eq_false_2 by (by destruct cart).
    fold body. by rewrite Hok.
  - by rewrite Hok.
  - cbn. by rewrite <- app_assoc.
  - done.
  - done.
  - cbn. lia.
Qed.

Lemma checkout_after_failed_cart_deletion_witness :
  "s1" ≠ ""
  ∧ [fries] ≠ []
  ∧ ∃ body,
      checkout (λ body, Some (serve (post_orders 2000 body) [false; true]
                                sample_store).1) "s1" [fries]
      = (Some body, [fries])
      ∧ length (Orders (serve (post_orders 2000 body) [false; true]
                          sample_store).2) = 3%nat.
Proof.
  assert ("s1" ≠ "") as Hsid by (intros [=]).
  assert ([fries] ≠ []) as Hcart by (intros [=]).
  split; [exact Hsid|]. split; [exact Hcart|].
  destruct (checkout_after_failed_cart_deletion 2000 3000 "s1" [fries]
              sample_store Hsid Hcart)
    as (body & order & s' & order' & s'' & Hcheckout & Hrun & Horders & _).
  exists body. split; [exact Hcheckout|].
  rewrite Hrun, Horders. reflexivity.
Defined.
